(** * prodpy: Arps decline-curve engine

    A shallow embedding of [prodpy/decline/_arpmod.py],
    [prodpy/decline/arps/_hyperbolic.py] and [prodpy/_analysis.py].

    Conventions of the embedding.
    - A Python [float] and an entry of a [numpy] float array is a value of
      [fl]: a real number, [+inf], [-inf] or [NaN].  Arithmetic follows the
      IEEE-754 rules for the special values and is exact on the finite ones:
      rounding, overflow and the sign of zero are abstracted away.
    - Python code may raise and may log: a computation is a value of [M A],
      the list of records handed to [logging.error] together with either the
      returned value or the exception that reached the caller.
    - A [numpy.ndarray] of floats is a [list fl]. *)

From Stdlib Require Import Reals Lra Lia List String Ascii Bool Arith ZArith.
Import ListNotations.

Set Implicit Arguments.

(** ** Python: exceptions, logging, name lookup *)

Module Py.

Inductive exn : Type :=
| ZeroDivisionError
| NameError (name : string)
| UnboundLocalError (name : string)
| AttributeError (attr : string)
| TypeError
| ValueError
| IndexError
| LibraryError (msg : string).

Inductive res (A : Type) : Type :=
| Ok (a : A)
| Raise (e : exn).

Arguments Ok {A} a.
Arguments Raise {A} e.

(** The records written through [logging.error], oldest first, and the
    outcome. *)
Definition M (A : Type) : Type := (list string * res A)%type.

Definition ret {A} (a : A) : M A := ([], Ok a).
Definition raise {A} (e : exn) : M A := ([], Raise e).
Definition logging_error (msg : string) : M unit := ([msg], Ok tt).

Definition bind {A B} (m : M A) (k : A -> M B) : M B :=
  match m with
  | (l, Ok a) => let (l', r) := k a in (l ++ l', r)
  | (l, Raise e) => (l, Raise e)
  end.

Definition logs {A} (m : M A) : list string := fst m.
Definition outcome {A} (m : M A) : res A := snd m.

(** The rows of [a] selected by a mask of the length of [a];
    [IndexError] when the lengths differ. *)
Fixpoint mask_rows {A} (a : list A) (mask : list bool) : M (list A) :=
  match a, mask with
  | [], [] => ret []
  | v :: a', m :: mask' =>
      bind (mask_rows a' mask')
           (fun r => ret (if m then v :: r else r))
  | _, _ => raise IndexError
  end.

(** Boolean-mask indexing [a[mask]] of numpy.  The length of a mask is
    checked against the array only when the mask is not empty: an empty
    mask selects nothing from an array of any length. *)
Definition mask_index {A} (a : list A) (mask : list bool) : M (list A) :=
  match mask with
  | [] => ret []
  | _ :: _ => mask_rows a mask
  end.

(** [str.lower] on ASCII text. *)
Definition lower_ascii (c : ascii) : ascii :=
  let n := nat_of_ascii c in
  if (65 <=? n)%nat && (n <=? 90)%nat then ascii_of_nat (n + 32) else c.

Fixpoint lower (s : string) : string :=
  match s with
  | EmptyString => EmptyString
  | String c s' => String (lower_ascii c) (lower s')
  end.

(** [s in (a, b)] for a tuple of strings. *)
Definition str_in (s : string) (t : list string) : bool :=
  existsb (String.eqb s) t.

End Py.

Import Py.

Declare Scope py_scope.
Notation "x <- m ;; k" := (bind m (fun x => k))
  (at level 61, m at next level, right associativity) : py_scope.
Notation "m ;;; k" := (bind m (fun _ => k))
  (at level 61, right associativity) : py_scope.
Open Scope py_scope.
Open Scope string_scope.
Open Scope R_scope.

(** ** numpy: float values and element-wise operations *)

Module Np.

Inductive fl : Type :=
| Fin (r : R)
| PInf
| NInf
| NaN.

Definition Rsign (r : R) : comparison :=
  match total_order_T r 0 with
  | inleft (left _) => Lt
  | inleft (right _) => Eq
  | inright _ => Gt
  end.

Definition isnan (v : fl) : bool :=
  match v with NaN => true | _ => false end.

Definition isfinite (v : fl) : bool :=
  match v with Fin _ => true | _ => false end.

(** [a == b] on floats: [NaN] equals nothing. *)
Definition feqb (a b : fl) : bool :=
  match a, b with
  | Fin x, Fin y => if Req_dec_T x y then true else false
  | PInf, PInf => true
  | NInf, NInf => true
  | _, _ => false
  end.

(** [a != b] on floats. *)
Definition fneb (a b : fl) : bool := negb (feqb a b).

Definition fneg (a : fl) : fl :=
  match a with
  | Fin x => Fin (- x)
  | PInf => NInf
  | NInf => PInf
  | NaN => NaN
  end.

Definition fadd (a b : fl) : fl :=
  match a, b with
  | NaN, _ | _, NaN => NaN
  | Fin x, Fin y => Fin (x + y)
  | PInf, NInf | NInf, PInf => NaN
  | PInf, _ | _, PInf => PInf
  | NInf, _ | _, NInf => NInf
  end.

Definition fsub (a b : fl) : fl := fadd a (fneg b).

(** An infinity of the sign of [s], [NaN] for a zero factor. *)
Definition inf_signed (pos : bool) (s : comparison) : fl :=
  match s with
  | Eq => NaN
  | Gt => if pos then PInf else NInf
  | Lt => if pos then NInf else PInf
  end.

Definition fmul (a b : fl) : fl :=
  match a, b with
  | NaN, _ | _, NaN => NaN
  | Fin x, Fin y => Fin (x * y)
  | PInf, Fin y => inf_signed true (Rsign y)
  | NInf, Fin y => inf_signed false (Rsign y)
  | Fin x, PInf => inf_signed true (Rsign x)
  | Fin x, NInf => inf_signed false (Rsign x)
  | PInf, PInf | NInf, NInf => PInf
  | PInf, NInf | NInf, PInf => NInf
  end.

(** numpy's true division: a zero divisor gives an infinity or [NaN] (with
    a RuntimeWarning), never an exception. *)
Definition fdiv (a b : fl) : fl :=
  match a, b with
  | NaN, _ | _, NaN => NaN
  | Fin x, Fin y =>
      match Rsign y with
      | Eq => inf_signed true (Rsign x)
      | _ => Fin (x / y)
      end
  | Fin _, _ => Fin 0
  | PInf, Fin y => match Rsign y with Lt => NInf | _ => PInf end
  | NInf, Fin y => match Rsign y with Lt => PInf | _ => NInf end
  | _, _ => NaN
  end.

Definition fexp (a : fl) : fl :=
  match a with
  | Fin x => Fin (exp x)
  | PInf => PInf
  | NInf => Fin 0
  | NaN => NaN
  end.

Definition flog (a : fl) : fl :=
  match a with
  | Fin x =>
      match Rsign x with
      | Gt => Fin (ln x)
      | Eq => NInf
      | Lt => NaN
      end
  | PInf => PInf
  | _ => NaN
  end.

(** Whether a real is an integer, and whether that integer is odd. *)
Definition is_integer (c : R) : bool :=
  if Req_dec_T (frac_part c) 0 then true else false.

Definition is_odd (c : R) : bool := Z.odd (Int_part c).

(** [a ** c] (C's [pow]): [exp (c * ln a)] on a positive base, the signed
    integer power on a negative base, [NaN] for a negative base with a
    fractional exponent. *)
Definition fpow (a c : fl) : fl :=
  match a, c with
  | _, Fin y =>
      match Rsign y with
      | Eq => Fin 1
      | sy =>
          match a with
          | NaN => NaN
          | Fin x =>
              match Rsign x with
              | Gt => Fin (Rpower x y)
              | Eq => match sy with Gt => Fin 0 | _ => PInf end
              | Lt =>
                  if is_integer y
                  then Fin (if is_odd y then - Rpower (- x) y
                            else Rpower (- x) y)
                  else NaN
              end
          | PInf => match sy with Gt => PInf | _ => Fin 0 end
          | NInf =>
              match sy with
              | Gt => if is_integer y && is_odd y then NInf else PInf
              | _ => Fin 0
              end
          end
      end
  | Fin x, NaN => if Req_dec_T x 1 then Fin 1 else NaN
  | _, NaN => NaN
  | NaN, _ => NaN
  | Fin x, PInf =>
      match Rsign (Rabs x - 1) with
      | Lt => Fin 0
      | Eq => Fin 1
      | Gt => PInf
      end
  | Fin x, NInf =>
      match Rsign (Rabs x - 1) with
      | Lt => PInf
      | Eq => Fin 1
      | Gt => Fin 0
      end
  | _, PInf => PInf
  | _, NInf => Fin 0
  end.

(** The square of a value. *)
Definition fsquare (a : fl) : fl := fmul a a.

Definition array : Type := list fl.

(** The array of finite values. *)
Definition reals (x : list R) : array := map Fin x.

End Np.

Import Np.

(** Python's scalar division [a / b] of two plain Python numbers: a zero
    divisor raises.  (A division in which an operand is a [numpy.float64]
    is numpy's, see [Kinds.sdiv].) *)
Definition pydiv (a b : fl) : M fl :=
  if feqb b (Fin 0) then raise ZeroDivisionError else ret (fdiv a b).

(** [a >= b] on floats. *)
Definition fgeb (a b : fl) : bool :=
  match a, b with
  | NaN, _ | _, NaN => false
  | Fin x, Fin y => if Rle_dec y x then true else false
  | PInf, _ => true
  | _, NInf => true
  | _, _ => false
  end.

(** Element-wise binary operation of two arrays with numpy's broadcasting
    of a one-element array; other shape mismatches raise [ValueError]. *)
Fixpoint zip_with (f : fl -> fl -> fl) (a b : array) : array :=
  match a, b with
  | u :: a', v :: b' => f u v :: zip_with f a' b'
  | _, _ => []
  end.

Definition broadcast (f : fl -> fl -> fl) (a b : array) : M array :=
  match a, b with
  | [u], _ => ret (map (fun v => f u v) b)
  | _, [v] => ret (map (fun u => f u v) a)
  | _, _ =>
      if (List.length a =? List.length b)%nat then ret (zip_with f a b)
      else raise ValueError
  end.

(** [numpy.sum] *)
Definition fsum (a : array) : fl := fold_right fadd (Fin 0) a.

(** [numpy.nansum]: [NaN] entries count as zero. *)
Definition nansum (a : array) : fl :=
  fsum (map (fun v => if isnan v then Fin 0 else v) a).

(** [numpy.nanmean]: the sum of the entries that are not [NaN] over their
    number; [NaN] when there is none. *)
Definition nancount (a : array) : nat :=
  List.length (filter (fun v => negb (isnan v)) a).

Definition nanmean (a : array) : fl :=
  fdiv (nansum a) (Fin (INR (nancount a))).

(** An entry of an array of measurements: a number or [NaN]. *)
Definition number_or_nan (v : fl) : Prop := isfinite v || isnan v = true.

(** ** [prodpy/decline/_arpmod.py] *)

(** [scipy.stats.linregress]'s result. *)
Record LinregressResult : Type := mkLinregress {
  slope : fl;
  intercept : fl;
  rvalue : fl;
  pvalue : fl;
  stderr : fl;
  intercept_stderr : fl
}.

Module Arps.

(** [Arps.get_mode] *)
Definition get_mode (b : fl) : string :=
  if feqb b (Fin 0) then "Exponential"
  else if feqb b (Fin 1) then "Harmonic"
  else "Hyperbolic".

(** [Arps.get_b]; an unknown mode is logged and [None] is returned. *)
Definition get_b (mode : string) : M (option fl) :=
  if str_in (lower mode) ["exponential"; "exp"] then ret (Some (Fin 0))
  else if str_in (lower mode) ["hyperbolic"; "hyp"] then ret (Some (Fin (5 / 10)))
  else if str_in (lower mode) ["harmonic"; "har"] then ret (Some (Fin 1))
  else
    logging_error
      "Error occurred: Available modes are Exponential, Hyperbolic, and Harmonic." ;;;
    ret None.

(** The [mode] property: [self.get_mode(self.b).lower()[:3]]. *)
Definition mode (b : fl) : string := substring 0 3 (lower (get_mode b)).

(** [Arps.option] *)
Definition option_ (mode : option string) (b : option fl)
  : M (string * option fl) :=
  match mode, b with
  | None, None => ret ("Exponential", Some (Fin 0))
  | Some m, None => b' <- get_b m ;; ret (m, b')
  | _, Some b' => ret (get_mode b', Some b')
  end.

(** The positional arguments [inp] built by [frw] and [cum]: four of them,
    and the exponent as a fifth outside of [b == 0] and [b == 1]. *)
Record args : Type := mkArgs {
  arg_Di : fl;
  arg_yi : fl;
  arg_x : array;
  arg_xi : fl;
  arg_b : option fl
}.

Definition inp (b Di yi : fl) (x : array) (xi : fl) : args :=
  if feqb b (Fin 0) || feqb b (Fin 1)
  then mkArgs Di yi x xi None
  else mkArgs Di yi x xi (Some b).

(** Calling a method of four parameters, or of five with a default for the
    fifth, on [*inp]. *)
Definition call4 (f : fl -> fl -> array -> fl -> M array) (a : args)
  : M array :=
  match arg_b a with
  | None => f (arg_Di a) (arg_yi a) (arg_x a) (arg_xi a)
  | Some _ => raise TypeError
  end.

Definition call5 (f : fl -> fl -> array -> fl -> fl -> M array)
  (dflt : fl) (a : args) : M array :=
  f (arg_Di a) (arg_yi a) (arg_x a) (arg_xi a)
    (match arg_b a with Some b => b | None => dflt end).

(** [Arps.frwexp] *)
Definition frwexp (Di yi : fl) (x : array) (xi : fl) : M array :=
  ret (map (fun t => fmul yi (fexp (fmul (fneg Di) (fsub t xi)))) x).

(** [Arps.frwhyp] *)
Definition frwhyp (Di yi : fl) (x : array) (xi b : fl) : M array :=
  let base := map (fun t => fadd (Fin 1) (fmul (fmul b Di) (fsub t xi))) x in
  e <- pydiv (Fin 1) b ;;
  ret (map (fun v => fdiv yi (fpow v e)) base).

(** [Arps.frwhar] *)
Definition frwhar (Di yi : fl) (x : array) (xi : fl) : M array :=
  ret (map (fun t => fdiv yi (fadd (Fin 1) (fmul Di (fsub t xi)))) x).

(** [getattr(self, name)] for the forward methods. *)
Definition getattr_frw (name : string) : M (args -> M array) :=
  if String.eqb name "frwexp" then ret (call4 frwexp)
  else if String.eqb name "frwhyp" then ret (call5 frwhyp (Fin (5 / 10)))
  else if String.eqb name "frwhar" then ret (call4 frwhar)
  else raise (AttributeError name).

(** [Arps.frw] *)
Definition frw (b Di yi : fl) (x : array) (xi : fl) : M array :=
  let a := inp b Di yi x xi in
  f <- getattr_frw ("frw" ++ mode b) ;;
  f a.

(** [Arps.cumexp] *)
Definition cumexp (Di yi : fl) (x : array) (xi : fl) : M array :=
  q <- pydiv yi Di ;;
  ret (map (fun t =>
         fmul q (fsub (Fin 1) (fexp (fmul (fneg Di) (fsub t xi))))) x).

(** [Arps.cumhyp] *)
Definition cumhyp (Di yi : fl) (x : array) (xi b : fl) : M array :=
  q <- pydiv yi Di ;;
  q' <- pydiv q (fsub (Fin 1) b) ;;
  let base := map (fun t => fadd (Fin 1) (fmul (fmul b Di) (fsub t xi))) x in
  r <- pydiv (Fin 1) b ;;
  let e := fsub (Fin 1) r in
  ret (map (fun v => fmul q' (fsub (Fin 1) (fpow v e))) base).

(** [Arps.cumhar] *)
Definition cumhar (Di yi : fl) (x : array) (xi : fl) : M array :=
  q <- pydiv yi Di ;;
  ret (map (fun t =>
         fmul q (flog (fadd (Fin 1) (fmul Di (fsub t xi))))) x).

(** [getattr(self, name)] for the cumulative methods. *)
Definition getattr_cum (name : string) : M (args -> M array) :=
  if String.eqb name "cumexp" then ret (call4 cumexp)
  else if String.eqb name "cumhyp" then ret (call5 cumhyp (Fin (5 / 10)))
  else if String.eqb name "cumhar" then ret (call4 cumhar)
  else raise (AttributeError name).

(** [Arps.cum] *)
Definition cum (b Di yi : fl) (x : array) (xi : fl) : M array :=
  let a := inp b Di yi x xi in
  f <- getattr_cum ("cum" ++ mode b) ;;
  f a.

(** [Arps.shift] *)
Definition shift (x y : array) (xi : option fl) : M (array * array) :=
  match xi with
  | None => ret (x, y)
  | Some xi =>
      let keep := map (fun t => fgeb t xi) x in
      x' <- mask_index x keep ;;
      y' <- mask_index y keep ;;
      ret (map (fun t => fsub t xi) x', y')
  end.

(** [Arps.nzero] *)
Definition nzero (x y : array) : M (array * array) :=
  let keep := map (fun v => negb (isnan v) && fneb v (Fin 0)) y in
  x' <- mask_index x keep ;;
  y' <- mask_index y keep ;;
  ret (x', y').

(** [Arps.rsquared] *)
Definition rsquared (ycal yobs : array) : M fl :=
  d <- broadcast fsub yobs ycal ;;
  let ssres := nansum (map (fun v => fpow v (Fin 2)) d) in
  let m := nanmean yobs in
  let sstot := nansum (map (fun v => fpow (fsub v m) (Fin 2)) yobs) in
  ret (fsub (Fin 1) (fdiv ssres sstot)).

(** The result bunches: [Result] of [_arpmod.py] has nine fields, the
    fitting result of the per-mode models has the two [linear] and
    [nonlinear]. *)
Record NonLinResult : Type := mkNonLin {
  decline : fl;
  nl_intercept : fl;
  R2 : fl
}.

Record FitResult : Type := mkFit {
  linear : option LinregressResult;
  nonlinear : NonLinResult
}.

(** *** Name resolution inside the module

    The names bound at module level of [_arpmod.py]; no builtin is called
    [self], [Exponential], [Hyperbolic], [Harmonic] or [NonLinRegrResult]. *)
Inductive pyobj : Type :=
| Mod_logging
| Mod_numpy
| Fn_make_tuple_bunch
| Fn_linregress
| Obj_norm
| Cls_Result
| Cls_LinregressResult
| Cls_Arps.

Definition module_globals : list (string * pyobj) :=
  [("logging", Mod_logging); ("numpy", Mod_numpy);
   ("_make_tuple_bunch", Fn_make_tuple_bunch);
   ("linregress", Fn_linregress); ("norm", Obj_norm);
   ("Result", Cls_Result); ("LinregressResult", Cls_LinregressResult);
   ("Arps", Cls_Arps)].

Fixpoint lookup (name : string) (env : list (string * pyobj)) : option pyobj :=
  match env with
  | [] => None
  | (n, o) :: env' => if String.eqb n name then Some o else lookup name env'
  end.

(** A name that is neither a parameter nor assigned in the function is
    looked up in the module. *)
Definition load_global (name : string) : M pyobj :=
  match lookup name module_globals with
  | Some o => ret o
  | None => raise (NameError name)
  end.

(** A local variable is read: it must have been assigned. *)
Definition load_fast {A} (v : option A) (name : string) : M A :=
  match v with
  | Some a => ret a
  | None => raise (UnboundLocalError name)
  end.

(** Zero-argument [super()] in a static method: there is no instance, the
    first parameter is an array. *)
Definition super_ : M pyobj := raise TypeError.

(** Calling the nine-field [Result] with two positional arguments. *)
Definition call_Result2 (l : option LinregressResult) (n : NonLinResult)
  : M FitResult := raise TypeError.

Section Regression.

(** [scipy.stats.linregress]: ordinary least squares, or the exception it
    raises on input it cannot regress. *)
Variable linregress : array -> array -> res LinregressResult.

Definition str_exn (e : exn) : string :=
  match e with
  | ZeroDivisionError => "float division by zero"
  | NameError n => "name '" ++ n ++ "' is not defined"
  | UnboundLocalError n => "local variable '" ++ n ++ "' referenced before assignment"
  | AttributeError a => "no attribute '" ++ a ++ "'"
  | TypeError => "TypeError"
  | ValueError => "ValueError"
  | IndexError => "IndexError"
  | LibraryError msg => msg
  end.

(** [Arps.regress] *)
Definition regress (x y : array) : M (option LinregressResult) :=
  match linregress x y with
  | Raise exception =>
      logging_error ("Error occurred: " ++ str_exn exception) ;;;
      ret None
  | Ok linear => ret (Some linear)
  end.

(** Attribute access on a module-level object, for the attributes the
    inverse methods ask for. *)
Definition getattr_shift (o : pyobj)
  : M (array -> array -> option fl -> M (array * array)) :=
  match o with
  | Cls_Arps => ret shift
  | _ => raise (AttributeError "shift")
  end.

Definition getattr_regress (o : pyobj)
  : M (array -> array -> M (option LinregressResult)) :=
  match o with
  | Cls_Arps => ret regress
  | _ => raise (AttributeError "regress")
  end.

Definition getattr_inverse (o : pyobj)
  : M (LinregressResult -> M (fl * fl)) :=
  raise (AttributeError "inverse").

Definition getattr_b (o : pyobj) : M fl :=
  match o with
  | Cls_Arps => raise TypeError
  | _ => raise (AttributeError "b")
  end.

Definition getattr_rsquared (o : pyobj) : M (array -> array -> M fl) :=
  match o with
  | Cls_Arps => ret rsquared
  | _ => raise (AttributeError "rsquared")
  end.

(** The default parameters when [linear is None], the inverse transform
    otherwise. *)
Definition params_of (dflt : fl * fl) (linear : option LinregressResult)
  : M (fl * fl) :=
  match linear with
  | None => ret dflt
  | Some l =>
      self <- load_global "self" ;;
      inverse <- getattr_inverse self ;;
      inverse l
  end.

(** [Arps.invexp] *)
Definition invexp (x y : array) (xi : option fl) : M FitResult :=
  self <- load_global "self" ;;
  shift_ <- getattr_shift self ;;
  yobs0 <- load_fast (@None array) "yobs" ;;
  p <- shift_ x yobs0 xi ;;
  let '(x, yobs) := p in
  sup <- super_ ;;
  regress_ <- getattr_regress sup ;;
  linear <- regress_ x (map flog yobs) ;;
  params <- params_of (Fin 0, Fin 0) linear ;;
  model <- load_global "Exponential" ;;
  rsquared_ <- getattr_rsquared model ;;
  r2 <- rsquared_ x yobs ;;
  _ <- load_global "NonLinRegrResult" ;;
  let nonlinear := mkNonLin (fst params) (snd params) r2 in
  _ <- load_global "Result" ;;
  call_Result2 linear nonlinear.

(** [Arps.invhyp] *)
Definition invhyp (x y : array) (xi : option fl) (b : fl) : M FitResult :=
  self <- load_global "self" ;;
  shift_ <- getattr_shift self ;;
  yobs0 <- load_fast (@None array) "yobs" ;;
  p <- shift_ x yobs0 xi ;;
  let '(x, yobs) := p in
  sup <- super_ ;;
  regress_ <- getattr_regress sup ;;
  self <- load_global "self" ;;
  sb <- getattr_b self ;;
  linear <- regress_ x (map (fun v => fpow (fdiv (Fin 1) v) sb) yobs) ;;
  params <- params_of (Fin 0, Fin 0) linear ;;
  model <- load_global "Hyperbolic" ;;
  rsquared_ <- getattr_rsquared model ;;
  r2 <- rsquared_ x yobs ;;
  _ <- load_global "NonLinRegrResult" ;;
  let nonlinear := mkNonLin (fst params) (snd params) r2 in
  _ <- load_global "Result" ;;
  call_Result2 linear nonlinear.

(** [Arps.invhar] *)
Definition invhar (x y : array) (xi : option fl) : M FitResult :=
  self <- load_global "self" ;;
  shift_ <- getattr_shift self ;;
  yobs0 <- load_fast (@None array) "yobs" ;;
  p <- shift_ x yobs0 xi ;;
  let '(x, yobs) := p in
  sup <- super_ ;;
  regress_ <- getattr_regress sup ;;
  linear <- regress_ x (map (fun v => fdiv (Fin 1) v) yobs) ;;
  params <- params_of (Fin 0, Fin 0) linear ;;
  model <- load_global "Harmonic" ;;
  rsquared_ <- getattr_rsquared model ;;
  r2 <- rsquared_ x yobs ;;
  _ <- load_global "NonLinRegrResult" ;;
  let nonlinear := mkNonLin (fst params) (snd params) r2 in
  _ <- load_global "Result" ;;
  call_Result2 linear nonlinear.

(** [Arps.inv] *)
Definition inv (b : fl) (x y : array) (xi : option fl) : M FitResult :=
  let m := mode b in
  if String.eqb ("inv" ++ m) "invexp" then
    if feqb b (Fin 0) || feqb b (Fin 1) then invexp x y xi else raise TypeError
  else if String.eqb ("inv" ++ m) "invhyp" then
    invhyp x y xi (if feqb b (Fin 0) || feqb b (Fin 1) then Fin (5 / 10) else b)
  else if String.eqb ("inv" ++ m) "invhar" then
    if feqb b (Fin 0) || feqb b (Fin 1) then invhar x y xi else raise TypeError
  else raise (AttributeError ("inv" ++ m)).

End Regression.

End Arps.

(** ** [prodpy/decline/arps/_hyperbolic.py] *)

Module Hyperbolic.

Import Arps.

Section Model.

(** [GenModel], the parent class, is defined in [_genmod.py]; its methods
    used by [Hyperbolic.regress] are parameters here.  [xp] is the exponent
    held by the instance. *)
Variable xp : fl.
Variable xshift : array -> array -> option fl -> M (array * array).
Variable GenModel_regress : array -> array -> M (option LinregressResult).
Variable rvalue : fl -> fl -> fl -> array -> array -> M fl.

(** Line 30: [x,yobs = x[yobs!=0],yobs[yobs!=0]]. *)
Definition nonzero (x yobs : array) : M (array * array) :=
  let keep := map (fun v => fneb v (Fin 0)) yobs in
  x' <- mask_index x keep ;;
  yobs' <- mask_index yobs keep ;;
  ret (x', yobs').

(** [numpy.power(1/yobs, self.xp)] *)
Definition linearize (yobs : array) : array :=
  map (fun v => fpow (fdiv (Fin 1) v) xp) yobs.

(** The right-hand side of line 34.  The conditional expression binds
    tighter than the commas, so the display has three items:
    [0], [(0 if linear is None else slope/intercept/xp)] and
    [intercept**(-1/xp)]. *)
Definition line34 (linear : option LinregressResult) : M (list fl) :=
  let item1 := Fin 0 in
  let item2 :=
    match linear with
    | None => Fin 0
    | Some l => fdiv (fdiv (slope l) (intercept l)) xp
    end in
  item3 <-
    match linear with
    | None => raise (AttributeError "intercept")
    | Some l => e <- pydiv (Fin (-1)) xp ;; ret (fpow (intercept l) e)
    end ;;
  ret [item1; item2; item3].

(** Unpacking into the two targets [Di,yi]. *)
Definition unpack2 (t : list fl) : M (fl * fl) :=
  match t with
  | [a; b] => ret (a, b)
  | _ => raise ValueError
  end.

(** [Hyperbolic.regress] *)
Definition regress (x yobs : array) (xi : option fl) : M FitResult :=
  p <- xshift x yobs xi ;;
  q <- nonzero (fst p) (snd p) ;;
  let '(x, yobs) := q in
  linear <- GenModel_regress x (linearize yobs) ;;
  t <- line34 linear ;;
  dy <- unpack2 t ;;
  let '(Di, yi) := dy in
  r2 <- rvalue Di yi xp x yobs ;;
  ret (mkFit linear (mkNonLin Di yi r2)).

(** [Hyperbolic.model]: the parameters of the fitted model. *)
Definition model (x yobs : array) (xi : option fl) : M (fl * fl * fl) :=
  result <- regress x yobs xi ;;
  ret (decline (nonlinear result), nl_intercept (nonlinear result), xp).

End Model.

End Hyperbolic.

(** ** [prodpy/_analysis.py] *)

Module Analysis.

(** The names bound at module level of [_analysis.py]: its imports
    ([datetime], [pandas], [Arps], [TimeSpan]) and its class.  The names
    [Curve], [Optimize] and [Model] are used in the file and bound nowhere
    in it. *)
Definition module_globals : list string :=
  ["datetime"; "pandas"; "Arps"; "TimeSpan"; "Analysis"].

(** A name that is neither a parameter nor assigned in the function is
    looked up in the module. *)
Definition load_global (name : string) : M unit :=
  if str_in name module_globals then ret tt else raise (NameError name).

Section Forecast.

(** [TimeSpan] is defined in [_timespan.py]: the date range and the
    elapsed days of a range from a model's anchor are parameters.
    [Curve_run], [Curve_set] and [Curve_frame] stand for what the object
    called [Curve] would do once the name is found.  A table is the list
    of its rows, each under its index label. *)
Variables Key Model Dates Days Curve Row : Type.
Variable TimeSpan_get : Dates.
Variable days : Dates -> Model -> Days.
Variable Curve_run : Model -> Days -> Curve.
Variable Curve_set : Curve -> Dates -> Curve.
Variable Curve_frame : Curve -> list (nat * Row).

Definition Frame : Type := list (nat * Row).

(** [pandas.concat([a, b])]: the rows of [a] then those of [b], labels
    kept. *)
Definition concat2 (a b : Frame) : Frame := (a ++ b)%list.

(** [frame.reset_index(drop=True)]: the rows relabelled 0, 1, ... *)
Definition reset_index (f : Frame) : Frame :=
  combine (seq 0 (List.length f)) (map snd f).

(** The three statements of the loop body that build the table of one
    model: [days] is computed, then the name [Curve] is looked up. *)
Definition item_frame (dates : Dates) (model : Model) : M Frame :=
  let days_ := days dates model in
  load_global "Curve" ;;;
  let curve := Curve_run model days_ in
  let curve := Curve_set curve dates in
  ret (Curve_frame curve).

(** The loop of [mrun] over [enumerate(models.items(), start=1)]; [frame]
    is the local variable, unbound until its first assignment. *)
Fixpoint mrun_loop (dates : Dates) (items : list (Key * Model))
  (index : nat) (frame : option Frame) : M (option Frame) :=
  match items with
  | [] => ret frame
  | (key, model) :: rest =>
      cf <- item_frame dates model ;;
      frame' <-
        (if (index =? 1)%nat then ret cf
         else load_global "pandas" ;;;
              f <- Arps.load_fast frame "frame" ;; ret (concat2 f cf)) ;;
      mrun_loop dates rest (S index) (Some frame')
  end.

(** [Analysis.mrun]; a dictionary is the list of its items in insertion
    order. *)
Definition mrun (models : list (Key * Model)) : M Frame :=
  load_global "TimeSpan" ;;;
  let dates := TimeSpan_get in
  frame <- mrun_loop dates models 1 None ;;
  f <- Arps.load_fast frame "frame" ;;
  ret (reset_index f).

End Forecast.

End Analysis.

(** ** Cumulative evaluation on scalars of either kind

    The methods of [Arps] above take their scalar arguments as plain
    Python numbers, as annotated.  A caller may also pass a
    [numpy.float64] (a fitted slope, an entry of an array): it is a
    subclass of [float] whose division is numpy's and does not raise.
    This module carries the kind of every scalar through the cumulative
    methods; on plain Python numbers it is [Arps.cum]. *)

Module Kinds.

Inductive scalar : Type :=
| PyFloat (v : fl)
| NpFloat (v : fl).

Definition val (s : scalar) : fl :=
  match s with PyFloat v | NpFloat v => v end.

Definition is_np (s : scalar) : bool :=
  match s with NpFloat _ => true | PyFloat _ => false end.

Definition mk (np : bool) (v : fl) : scalar :=
  if np then NpFloat v else PyFloat v.

(** [a / b]: Python's division when both operands are plain Python
    numbers, numpy's as soon as one is a [numpy.float64]. *)
Definition sdiv (a b : scalar) : M scalar :=
  if is_np a || is_np b then ret (NpFloat (fdiv (val a) (val b)))
  else q <- pydiv (val a) (val b) ;; ret (PyFloat q).

(** [a - b] *)
Definition ssub (a b : scalar) : scalar :=
  mk (is_np a || is_np b) (fsub (val a) (val b)).

Record args : Type := mkArgs {
  arg_Di : scalar;
  arg_yi : scalar;
  arg_x : array;
  arg_xi : scalar;
  arg_b : option scalar
}.

Definition inp (b Di yi : scalar) (x : array) (xi : scalar) : args :=
  if feqb (val b) (Fin 0) || feqb (val b) (Fin 1)
  then mkArgs Di yi x xi None
  else mkArgs Di yi x xi (Some b).

Definition call4 (f : scalar -> scalar -> array -> scalar -> M array)
  (a : args) : M array :=
  match arg_b a with
  | None => f (arg_Di a) (arg_yi a) (arg_x a) (arg_xi a)
  | Some _ => raise TypeError
  end.

Definition call5 (f : scalar -> scalar -> array -> scalar -> scalar -> M array)
  (dflt : scalar) (a : args) : M array :=
  f (arg_Di a) (arg_yi a) (arg_x a) (arg_xi a)
    (match arg_b a with Some b => b | None => dflt end).

(** [Arps.cumexp] *)
Definition cumexp (Di yi : scalar) (x : array) (xi : scalar) : M array :=
  q <- sdiv yi Di ;;
  ret (map (fun t =>
         fmul (val q)
              (fsub (Fin 1) (fexp (fmul (fneg (val Di)) (fsub t (val xi))))))
           x).

(** [Arps.cumhyp] *)
Definition cumhyp (Di yi : scalar) (x : array) (xi b : scalar) : M array :=
  q <- sdiv yi Di ;;
  q' <- sdiv q (ssub (PyFloat (Fin 1)) b) ;;
  let base :=
    map (fun t => fadd (Fin 1) (fmul (fmul (val b) (val Di)) (fsub t (val xi))))
        x in
  r <- sdiv (PyFloat (Fin 1)) b ;;
  let e := ssub (PyFloat (Fin 1)) r in
  ret (map (fun v => fmul (val q') (fsub (Fin 1) (fpow v (val e)))) base).

(** [Arps.cumhar] *)
Definition cumhar (Di yi : scalar) (x : array) (xi : scalar) : M array :=
  q <- sdiv yi Di ;;
  ret (map (fun t =>
         fmul (val q) (flog (fadd (Fin 1) (fmul (val Di) (fsub t (val xi))))))
           x).

Definition getattr_cum (name : string) : M (args -> M array) :=
  if String.eqb name "cumexp" then ret (call4 cumexp)
  else if String.eqb name "cumhyp"
       then ret (call5 cumhyp (PyFloat (Fin (5 / 10))))
  else if String.eqb name "cumhar" then ret (call4 cumhar)
  else raise (AttributeError name).

(** [Arps.cum] *)
Definition cum (b Di yi : scalar) (x : array) (xi : scalar) : M array :=
  let a := inp b Di yi x xi in
  f <- getattr_cum ("cum" ++ Arps.mode (val b)) ;;
  f a.

End Kinds.

(** ** More of [Arps]: the mode names and the percentile *)

Module Score.

(** [Arps.modes] *)
Definition modes : list string := ["Exponential"; "Hyperbolic"; "Harmonic"].

(** The names [Arps.get_b] recognizes, once in lower case. *)
Definition known_names : list string :=
  ["exponential"; "exp"; "hyperbolic"; "hyp"; "harmonic"; "har"].

(** [numpy.sqrt]: [NaN] on a negative number. *)
Definition fsqrt (a : fl) : fl :=
  match a with
  | Fin x => match Rsign x with Lt => NaN | _ => Fin (sqrt x) end
  | PInf => PInf
  | _ => NaN
  end.

(** Sums of reals, to state what [rsquared] computes on arrays of
    numbers. *)
Definition Rsum (l : list R) : R := fold_right Rplus 0 l.

Definition sumsq (l : list R) : R := Rsum (map (fun d => d * d) l).

Definition Rmean (l : list R) : R := Rsum l / INR (List.length l).

Section Percentile.

(** [scipy.stats.norm.ppf], the quantile function of the standard normal
    law. *)
Variable norm_ppf : fl -> fl.

(** [Arps.percentile] *)
Definition percentile (mean variance perc : fl) : fl :=
  fadd mean (fmul (norm_ppf perc) (fsqrt variance)).

End Percentile.

End Score.

(** ** The R-squared of section 4.3 of the specification

    The reading of the specification: an index at which either array is
    [NaN] is left out of both sums, and the mean is taken over the
    entries that remain. *)

Module Spec.

Definition both_present (p : fl * fl) : bool :=
  negb (isnan (fst p)) && negb (isnan (snd p)).

Definition rsquared_joint (ycal yobs : array) : fl :=
  let kept := filter both_present (combine ycal yobs) in
  let obs := map snd kept in
  let m := fdiv (fsum obs) (Fin (INR (List.length obs))) in
  let ssres := fsum (map (fun p => fsquare (fsub (snd p) (fst p))) kept) in
  let sstot := fsum (map (fun v => fsquare (fsub v m)) obs) in
  fsub (Fin 1) (fdiv ssres sstot).

End Spec.

(** * Properties *)

(** ** Float comparisons and scalar division *)

Lemma Rsign_pos (r : R) : 0 < r -> Rsign r = Gt.
Proof.
  intros H. unfold Rsign.
  destruct (total_order_T r 0) as [[Hlt | Heq] | Hgt]; try reflexivity; lra.
Qed.

Lemma Rsign_neg (r : R) : r < 0 -> Rsign r = Lt.
Proof.
  intros H. unfold Rsign.
  destruct (total_order_T r 0) as [[Hlt | Heq] | Hgt]; try reflexivity; lra.
Qed.

Lemma Rsign_zero : Rsign 0 = Eq.
Proof.
  unfold Rsign.
  destruct (total_order_T 0 0) as [[Hlt | Heq] | Hgt]; try reflexivity; lra.
Qed.

Lemma Rsign_nonzero (r : R) : r <> 0 -> Rsign r <> Eq.
Proof.
  intros H. unfold Rsign.
  destruct (total_order_T r 0) as [[Hlt | Heq] | Hgt]; congruence.
Qed.

Lemma feqb_Fin_refl (a : R) : feqb (Fin a) (Fin a) = true.
Proof. simpl. destruct (Req_dec_T a a); congruence. Qed.

Lemma feqb_Fin_neq (a b : R) : a <> b -> feqb (Fin a) (Fin b) = false.
Proof. intros H. simpl. destruct (Req_dec_T a b); congruence. Qed.

Lemma feqb_Fin_true (v : fl) (r : R) : feqb v (Fin r) = true <-> v = Fin r.
Proof.
  split.
  - destruct v as [a | | |]; simpl; try discriminate.
    destruct (Req_dec_T a r); [congruence | discriminate].
  - intros ->. apply feqb_Fin_refl.
Qed.

Lemma pydiv_zero (a : fl) : pydiv a (Fin 0) = raise ZeroDivisionError.
Proof. unfold pydiv. now rewrite feqb_Fin_refl. Qed.

Lemma pydiv_Fin (a b : R) : b <> 0 -> pydiv (Fin a) (Fin b) = ret (Fin (a / b)).
Proof.
  intros H. unfold pydiv. rewrite feqb_Fin_neq by assumption.
  unfold fdiv. pose proof (Rsign_nonzero H) as Hs.
  destruct (Rsign b); congruence.
Qed.

Lemma fdiv_Fin (a b : R) : b <> 0 -> fdiv (Fin a) (Fin b) = Fin (a / b).
Proof.
  intros H. unfold fdiv. pose proof (Rsign_nonzero H) as Hs.
  destruct (Rsign b); congruence.
Qed.

Lemma fpow_Fin_pos (a c : R) :
  0 < a -> c <> 0 -> fpow (Fin a) (Fin c) = Fin (Rpower a c).
Proof.
  intros Ha Hc. unfold fpow. pose proof (Rsign_nonzero Hc) as Hs.
  rewrite (Rsign_pos Ha). destruct (Rsign c); congruence.
Qed.

Lemma flog_Fin_pos (a : R) : 0 < a -> flog (Fin a) = Fin (ln a).
Proof. intros Ha. unfold flog. now rewrite (Rsign_pos Ha). Qed.

Lemma bind_ret_l {A B} (a : A) (k : A -> M B) : bind (ret a) k = k a.
Proof. unfold bind, ret. destruct (k a). reflexivity. Qed.

Lemma bind_raise {A B} (e : exn) (k : A -> M B) : bind (raise e) k = raise e.
Proof. reflexivity. Qed.

(** ** The power of exponent two *)

Lemma Int_part_2 : Int_part 2 = 2%Z.
Proof. symmetry. apply Int_part_spec. simpl. lra. Qed.

Lemma is_integer_2 : is_integer 2 = true.
Proof.
  unfold is_integer, frac_part. rewrite Int_part_2.
  destruct (Req_dec_T (2 - 2) 0) as [_ | H]; [reflexivity | lra].
Qed.

Lemma is_odd_2 : is_odd 2 = false.
Proof. unfold is_odd. now rewrite Int_part_2. Qed.

Lemma Rpower_2 (a : R) : 0 < a -> Rpower a 2 = a * a.
Proof.
  intros Ha. replace 2 with (INR 2) by (simpl; lra).
  rewrite Rpower_pow by assumption. simpl. ring.
Qed.

(** [v ** 2] is the square of [v], whatever the sign of [v]. *)
Lemma fpow_2 (v : fl) : fpow v (Fin 2) = fsquare v.
Proof.
  unfold fpow, fsquare. rewrite (Rsign_pos (r := 2)) by lra.
  destruct v as [a | | |]; simpl; try reflexivity.
  - unfold Rsign. destruct (total_order_T a 0) as [[Hlt | ->] | Hgt].
    + rewrite is_integer_2, is_odd_2. rewrite Rpower_2 by lra. f_equal. ring.
    + f_equal. ring.
    + now rewrite Rpower_2.
  - now rewrite is_integer_2, is_odd_2.
Qed.

Lemma rsquared_squares (ycal yobs : array) :
  Arps.rsquared ycal yobs
  = (d <- broadcast fsub yobs ycal ;;
     ret (fsub (Fin 1)
            (fdiv (nansum (map fsquare d))
                  (nansum (map (fun v => fsquare (fsub v (nanmean yobs)))
                               yobs))))).
Proof.
  unfold Arps.rsquared.
  destruct (broadcast fsub yobs ycal) as [lg [d | e]]; simpl; [| reflexivity].
  rewrite (map_ext (fun v => fpow v (Fin 2)) fsquare fpow_2).
  rewrite (map_ext (fun v => fpow (fsub v (nanmean yobs)) (Fin 2))
             (fun v => fsquare (fsub v (nanmean yobs)))
             (fun v => fpow_2 _)).
  reflexivity.
Qed.

(** ** Modes and exponents *)

Lemma get_mode_exponential (v : fl) :
  Arps.get_mode v = "Exponential" <-> v = Fin 0.
Proof.
  unfold Arps.get_mode. rewrite <- feqb_Fin_true.
  destruct (feqb v (Fin 0)); [tauto |].
  destruct (feqb v (Fin 1)); split; discriminate.
Qed.

Lemma get_mode_harmonic (v : fl) :
  Arps.get_mode v = "Harmonic" <-> v = Fin 1.
Proof.
  unfold Arps.get_mode. split.
  - destruct (feqb v (Fin 0)); [discriminate |].
    destruct (feqb v (Fin 1)) eqn:E; [| discriminate].
    intros _. now apply feqb_Fin_true.
  - intros ->. rewrite feqb_Fin_neq by lra. now rewrite feqb_Fin_refl.
Qed.

Lemma get_mode_hyperbolic (b : R) :
  b <> 0 -> b <> 1 -> Arps.get_mode (Fin b) = "Hyperbolic".
Proof.
  intros H0 H1. unfold Arps.get_mode.
  now rewrite !feqb_Fin_neq by assumption.
Qed.

Lemma mode_exp : Arps.mode (Fin 0) = "exp".
Proof.
  unfold Arps.mode. now rewrite (proj2 (get_mode_exponential (Fin 0)) eq_refl).
Qed.

Lemma mode_har : Arps.mode (Fin 1) = "har".
Proof.
  unfold Arps.mode. now rewrite (proj2 (get_mode_harmonic (Fin 1)) eq_refl).
Qed.

Lemma mode_hyp (b : R) : b <> 0 -> b <> 1 -> Arps.mode (Fin b) = "hyp".
Proof.
  intros H0 H1. unfold Arps.mode. now rewrite get_mode_hyperbolic.
Qed.

Lemma inp_exp (Di yi : fl) (x : array) (xi : fl) :
  Arps.inp (Fin 0) Di yi x xi = Arps.mkArgs Di yi x xi None.
Proof. unfold Arps.inp. now rewrite feqb_Fin_refl. Qed.

Lemma inp_har (Di yi : fl) (x : array) (xi : fl) :
  Arps.inp (Fin 1) Di yi x xi = Arps.mkArgs Di yi x xi None.
Proof.
  unfold Arps.inp. rewrite feqb_Fin_refl. now rewrite orb_true_r.
Qed.

Lemma inp_hyp (b : R) (Di yi : fl) (x : array) (xi : fl) :
  b <> 0 -> b <> 1 ->
  Arps.inp (Fin b) Di yi x xi = Arps.mkArgs Di yi x xi (Some (Fin b)).
Proof.
  intros H0 H1. unfold Arps.inp. now rewrite !feqb_Fin_neq by assumption.
Qed.

(** The dispatch of [frw] and [cum] on the exponent. *)
Lemma frw_dispatch_exp (Di yi : fl) (x : array) (xi : fl) :
  Arps.frw (Fin 0) Di yi x xi = Arps.frwexp Di yi x xi.
Proof. unfold Arps.frw. rewrite mode_exp, inp_exp. reflexivity. Qed.

Lemma frw_dispatch_har (Di yi : fl) (x : array) (xi : fl) :
  Arps.frw (Fin 1) Di yi x xi = Arps.frwhar Di yi x xi.
Proof. unfold Arps.frw. rewrite mode_har, inp_har. reflexivity. Qed.

Lemma frw_dispatch_hyp (b : R) (Di yi : fl) (x : array) (xi : fl) :
  b <> 0 -> b <> 1 ->
  Arps.frw (Fin b) Di yi x xi = Arps.frwhyp Di yi x xi (Fin b).
Proof.
  intros H0 H1. unfold Arps.frw. rewrite mode_hyp, inp_hyp by assumption.
  simpl. unfold Arps.call5. simpl.
  destruct (Arps.frwhyp Di yi x xi (Fin b)) as [l r]. reflexivity.
Qed.

Lemma cum_dispatch_exp (Di yi : fl) (x : array) (xi : fl) :
  Arps.cum (Fin 0) Di yi x xi = Arps.cumexp Di yi x xi.
Proof.
  unfold Arps.cum. rewrite mode_exp, inp_exp. simpl. unfold Arps.call4. simpl.
  destruct (Arps.cumexp Di yi x xi) as [l r]. reflexivity.
Qed.

Lemma cum_dispatch_har (Di yi : fl) (x : array) (xi : fl) :
  Arps.cum (Fin 1) Di yi x xi = Arps.cumhar Di yi x xi.
Proof.
  unfold Arps.cum. rewrite mode_har, inp_har. simpl. unfold Arps.call4. simpl.
  destruct (Arps.cumhar Di yi x xi) as [l r]. reflexivity.
Qed.

Lemma cum_dispatch_hyp (b : R) (Di yi : fl) (x : array) (xi : fl) :
  b <> 0 -> b <> 1 ->
  Arps.cum (Fin b) Di yi x xi = Arps.cumhyp Di yi x xi (Fin b).
Proof.
  intros H0 H1. unfold Arps.cum. rewrite mode_hyp, inp_hyp by assumption.
  simpl. unfold Arps.call5. simpl.
  destruct (Arps.cumhyp Di yi x xi (Fin b)) as [l r]. reflexivity.
Qed.

(** C7: the mode and exponent lookups round-trip:
    [get_b (get_mode 0.5)] is [0.5], [get_mode 0] is Exponential and
    [get_mode 1] is Harmonic; [get_mode] decides by equality with 0 and
    with 1 (the answer is Exponential exactly at 0, Harmonic exactly at 1)
    and is Hyperbolic at every other exponent of (0,1); nothing is
    logged on the way. *)
Theorem mode_lookup_roundtrip :
  Arps.get_b (Arps.get_mode (Fin (5 / 10))) = ret (Some (Fin (5 / 10)))
  /\ Arps.get_mode (Fin 0) = "Exponential"
  /\ Arps.get_mode (Fin 1) = "Harmonic"
  /\ (forall v : fl, Arps.get_mode v = "Exponential" <-> v = Fin 0)
  /\ (forall v : fl, Arps.get_mode v = "Harmonic" <-> v = Fin 1)
  /\ (forall b : R, 0 < b < 1 -> Arps.get_mode (Fin b) = "Hyperbolic").
Proof.
  repeat split.
  - rewrite get_mode_hyperbolic by lra. reflexivity.
  - now apply get_mode_exponential.
  - now apply get_mode_harmonic.
  - now apply get_mode_exponential.
  - now apply get_mode_exponential.
  - now apply get_mode_harmonic.
  - now apply get_mode_harmonic.
  - intros b Hb. apply get_mode_hyperbolic; lra.
Qed.

Lemma mode_lookup_roundtrip_witness :
  Arps.get_mode (Fin (1 / 4)) = "Hyperbolic".
Proof.
  apply (proj2 (proj2 (proj2 (proj2 (proj2 mode_lookup_roundtrip))))).
  lra.
Defined.

(** ** Forward evaluation *)

Lemma frwexp_reals (Di yi xi : R) (x : list R) :
  Arps.frwexp (Fin Di) (Fin yi) (reals x) (Fin xi)
  = ret (reals (map (fun t => yi * exp (- Di * (t - xi))) x)).
Proof.
  unfold Arps.frwexp, reals. rewrite !map_map. reflexivity.
Qed.

Lemma frwhar_fl (Di yi xi : R) (x : list R) :
  Arps.frwhar (Fin Di) (Fin yi) (reals x) (Fin xi)
  = ret (map (fun t => fdiv (Fin yi) (Fin (1 + Di * (t - xi)))) x).
Proof.
  unfold Arps.frwhar, reals. rewrite !map_map. reflexivity.
Qed.

Lemma frwhyp_fl (b Di yi xi : R) (x : list R) :
  b <> 0 ->
  Arps.frwhyp (Fin Di) (Fin yi) (reals x) (Fin xi) (Fin b)
  = ret (map (fun t => fdiv (Fin yi)
                         (fpow (Fin (1 + b * Di * (t - xi))) (Fin (1 / b)))) x).
Proof.
  intros Hb. unfold Arps.frwhyp, reals. rewrite pydiv_Fin by assumption.
  rewrite bind_ret_l. rewrite !map_map. reflexivity.
Qed.

Lemma map_ext_Forall {A B} (P : A -> Prop) (f g : A -> B) (l : list A) :
  Forall P l -> (forall a, P a -> f a = g a) -> map f l = map g l.
Proof.
  intros HP Hfg. induction HP as [| a l Ha _ IH]; simpl.
  - reflexivity.
  - now rewrite Hfg, IH.
Qed.

Lemma Rpower_nonzero (a c : R) : Rpower a c <> 0.
Proof. unfold Rpower. pose proof (exp_pos (c * ln a)). lra. Qed.

(** C1: forward evaluation on finite parameters and a real array returns
    [yi*exp(-Di*(x-xi))] at [b = 0], [yi/(1+b*Di*(x-xi))^(1/b)] at
    [0 < b < 1] and [yi/(1+Di*(x-xi))] at [b = 1]; the cases [b = 0] and
    [b = 1] run the dedicated methods [frwexp] and [frwhar], only the
    exponents in between run the general [frwhyp] (which at [b = 0] would
    raise on [1./b]). *)
Theorem frw_closed_forms (Di yi xi : R) (x : list R) :
  Arps.frw (Fin 0) (Fin Di) (Fin yi) (reals x) (Fin xi)
  = ret (reals (map (fun t => yi * exp (- Di * (t - xi))) x))
  /\ (forall b : R, 0 < b < 1 ->
        Arps.frw (Fin b) (Fin Di) (Fin yi) (reals x) (Fin xi)
        = ret (map (fun t =>
                 fdiv (Fin yi)
                      (fpow (Fin (1 + b * Di * (t - xi))) (Fin (1 / b)))) x)
        /\ (Forall (fun t => 0 < 1 + b * Di * (t - xi)) x ->
            Arps.frw (Fin b) (Fin Di) (Fin yi) (reals x) (Fin xi)
            = ret (reals (map (fun t =>
                     yi / Rpower (1 + b * Di * (t - xi)) (1 / b)) x))))
  /\ Arps.frw (Fin 1) (Fin Di) (Fin yi) (reals x) (Fin xi)
     = ret (map (fun t => fdiv (Fin yi) (Fin (1 + Di * (t - xi)))) x)
  /\ (Forall (fun t => 1 + Di * (t - xi) <> 0) x ->
      Arps.frw (Fin 1) (Fin Di) (Fin yi) (reals x) (Fin xi)
      = ret (reals (map (fun t => yi / (1 + Di * (t - xi))) x)))
  /\ (forall (D y : fl) (a : array) (i : fl),
        Arps.frw (Fin 0) D y a i = Arps.frwexp D y a i
        /\ Arps.frw (Fin 1) D y a i = Arps.frwhar D y a i
        /\ Arps.frwhyp D y a i (Fin 0) = raise ZeroDivisionError).
Proof.
  split; [| split; [| split; [| split]]].
  - rewrite frw_dispatch_exp. apply frwexp_reals.
  - intros b Hb.
    assert (Hfl : Arps.frw (Fin b) (Fin Di) (Fin yi) (reals x) (Fin xi)
                  = ret (map (fun t =>
                      fdiv (Fin yi)
                        (fpow (Fin (1 + b * Di * (t - xi))) (Fin (1 / b)))) x)).
    { rewrite frw_dispatch_hyp by lra. apply frwhyp_fl. lra. }
    split; [exact Hfl |].
    intros Hpos. rewrite Hfl. apply (f_equal (@ret array)).
    unfold reals. rewrite map_map.
    apply map_ext_Forall with (1 := Hpos). intros t Ht.
    assert (Hinv : 1 / b <> 0).
    { unfold Rdiv. rewrite Rmult_1_l. apply Rinv_neq_0_compat. lra. }
    rewrite fpow_Fin_pos by assumption.
    apply fdiv_Fin. apply Rpower_nonzero.
  - rewrite frw_dispatch_har. apply frwhar_fl.
  - intros Hnz. rewrite frw_dispatch_har, frwhar_fl.
    apply (f_equal (@ret array)). unfold reals. rewrite map_map.
    apply map_ext_Forall with (1 := Hnz). intros t Ht. now apply fdiv_Fin.
  - intros D y a i. split; [apply frw_dispatch_exp |].
    split; [apply frw_dispatch_har |].
    unfold Arps.frwhyp. now rewrite pydiv_zero.
Qed.

Lemma frw_closed_forms_witness :
  Arps.frw (Fin (1 / 2)) (Fin 1) (Fin 3) (reals [0; 2]) (Fin 0)
  = ret (reals (map (fun t => 3 / Rpower (1 + 1 / 2 * 1 * (t - 0)) (1 / (1 / 2)))
                    [0; 2])).
Proof.
  apply (proj1 (proj2 (frw_closed_forms 1 3 0 [0; 2])) (1 / 2)).
  - lra.
  - repeat constructor; lra.
Defined.

(** ** Cumulative evaluation *)

Lemma fsub_Fin (a b : R) : fsub (Fin a) (Fin b) = Fin (a - b).
Proof. reflexivity. Qed.

Lemma inv_gt_1 (b : R) : 0 < b < 1 -> 1 < 1 / b.
Proof.
  intros Hb. assert (H1 : b * / b = 1) by (apply Rinv_r; lra).
  assert (H2 : 0 < / b) by (apply Rinv_0_lt_compat; lra).
  unfold Rdiv. nra.
Qed.

Lemma cumexp_reals (Di yi xi : R) (x : list R) :
  Di <> 0 ->
  Arps.cumexp (Fin Di) (Fin yi) (reals x) (Fin xi)
  = ret (reals (map (fun t => yi / Di * (1 - exp (- Di * (t - xi)))) x)).
Proof.
  intros HDi. unfold Arps.cumexp, reals. rewrite pydiv_Fin by assumption.
  rewrite bind_ret_l, !map_map. reflexivity.
Qed.

Lemma cumhar_fl (Di yi xi : R) (x : list R) :
  Di <> 0 ->
  Arps.cumhar (Fin Di) (Fin yi) (reals x) (Fin xi)
  = ret (map (fun t => fmul (Fin (yi / Di))
                         (flog (Fin (1 + Di * (t - xi))))) x).
Proof.
  intros HDi. unfold Arps.cumhar, reals. rewrite pydiv_Fin by assumption.
  rewrite bind_ret_l, !map_map. reflexivity.
Qed.

Lemma cumhyp_fl (b Di yi xi : R) (x : list R) :
  Di <> 0 -> b <> 0 -> b <> 1 ->
  Arps.cumhyp (Fin Di) (Fin yi) (reals x) (Fin xi) (Fin b)
  = ret (map (fun t =>
           fmul (Fin (yi / Di / (1 - b)))
                (fsub (Fin 1)
                   (fpow (Fin (1 + b * Di * (t - xi))) (Fin (1 - 1 / b))))) x).
Proof.
  intros HDi Hb0 Hb1. unfold Arps.cumhyp, reals.
  rewrite pydiv_Fin by assumption. rewrite bind_ret_l.
  rewrite fsub_Fin. rewrite pydiv_Fin by lra. rewrite bind_ret_l.
  rewrite pydiv_Fin by assumption. rewrite bind_ret_l.
  rewrite fsub_Fin, !map_map. reflexivity.
Qed.

(** C4: cumulative evaluation on finite parameters with [Di <> 0] and a
    real array returns [(yi/Di)*(1-exp(-Di*(x-xi)))] at [b = 0],
    [(yi/Di)/(1-b)*(1-(1+b*Di*(x-xi))^(1-1/b))] at [0 < b < 1] and
    [(yi/Di)*ln(1+Di*(x-xi))] at [b = 1]. *)
Theorem cum_closed_forms (Di yi xi : R) (x : list R) :
  Di <> 0 ->
  Arps.cum (Fin 0) (Fin Di) (Fin yi) (reals x) (Fin xi)
  = ret (reals (map (fun t => yi / Di * (1 - exp (- Di * (t - xi)))) x))
  /\ (forall b : R, 0 < b < 1 ->
        Arps.cum (Fin b) (Fin Di) (Fin yi) (reals x) (Fin xi)
        = ret (map (fun t =>
                 fmul (Fin (yi / Di / (1 - b)))
                      (fsub (Fin 1)
                         (fpow (Fin (1 + b * Di * (t - xi)))
                               (Fin (1 - 1 / b))))) x)
        /\ (Forall (fun t => 0 < 1 + b * Di * (t - xi)) x ->
            Arps.cum (Fin b) (Fin Di) (Fin yi) (reals x) (Fin xi)
            = ret (reals (map (fun t =>
                     yi / Di / (1 - b)
                     * (1 - Rpower (1 + b * Di * (t - xi)) (1 - 1 / b))) x))))
  /\ Arps.cum (Fin 1) (Fin Di) (Fin yi) (reals x) (Fin xi)
     = ret (map (fun t => fmul (Fin (yi / Di))
                            (flog (Fin (1 + Di * (t - xi))))) x)
  /\ (Forall (fun t => 0 < 1 + Di * (t - xi)) x ->
      Arps.cum (Fin 1) (Fin Di) (Fin yi) (reals x) (Fin xi)
      = ret (reals (map (fun t => yi / Di * ln (1 + Di * (t - xi))) x))).
Proof.
  intros HDi. split; [| split; [| split]].
  - rewrite cum_dispatch_exp. now apply cumexp_reals.
  - intros b Hb.
    assert (Hfl : Arps.cum (Fin b) (Fin Di) (Fin yi) (reals x) (Fin xi)
                  = ret (map (fun t =>
                      fmul (Fin (yi / Di / (1 - b)))
                           (fsub (Fin 1)
                              (fpow (Fin (1 + b * Di * (t - xi)))
                                    (Fin (1 - 1 / b))))) x)).
    { rewrite cum_dispatch_hyp by lra. apply cumhyp_fl; lra. }
    split; [exact Hfl |].
    intros Hpos. rewrite Hfl. apply (f_equal (@ret array)).
    unfold reals. rewrite map_map.
    apply map_ext_Forall with (1 := Hpos). intros t Ht.
    pose proof (inv_gt_1 Hb) as Hinv.
    rewrite fpow_Fin_pos by (try assumption; lra).
    rewrite fsub_Fin. reflexivity.
  - rewrite cum_dispatch_har. now apply cumhar_fl.
  - intros Hpos. rewrite cum_dispatch_har, cumhar_fl by assumption.
    apply (f_equal (@ret array)). unfold reals. rewrite map_map.
    apply map_ext_Forall with (1 := Hpos). intros t Ht.
    now rewrite flog_Fin_pos.
Qed.

Lemma cum_closed_forms_witness :
  Arps.cum (Fin 1) (Fin 2) (Fin 3) (reals [0; 5]) (Fin 0)
  = ret (reals (map (fun t => 3 / 2 * ln (1 + 2 * (t - 0))) [0; 5])).
Proof.
  apply (cum_closed_forms 3 0 [0; 5] (Di := 2)).
  - lra.
  - repeat constructor; lra.
Defined.

(** On plain Python numbers a zero [Di] makes [yi/Di] raise in every
    mode. *)
Lemma cum_plain_zero_decline (b yi xi : fl) (x : array) :
  Arps.cum b (Fin 0) yi x xi = raise ZeroDivisionError.
Proof.
  unfold Arps.cum, Arps.mode, Arps.get_mode, Arps.inp.
  destruct (feqb b (Fin 0)); simpl.
  - unfold Arps.call4, Arps.cumexp. simpl. now rewrite pydiv_zero.
  - destruct (feqb b (Fin 1)); simpl.
    + unfold Arps.call4, Arps.cumhar. simpl. now rewrite pydiv_zero.
    + unfold Arps.call5, Arps.cumhyp. simpl. now rewrite pydiv_zero.
Qed.

(** ** Monotonicity of the forward function *)

Lemma Rdiv_lt_contravar (y a c : R) :
  0 < y -> 0 < a -> a < c -> y / c < y / a.
Proof.
  intros Hy Ha Hac. unfold Rdiv. apply Rmult_lt_compat_l; [assumption |].
  apply Rinv_lt_contravar; nra.
Qed.

(** In the exact arithmetic of this development the forward values at two
    points [x1 < x2] after the pole are strictly ordered.  (Rounding can
    merge two such values, so strictness is a fact of the formula, not of
    its evaluation in binary64.) *)
Lemma frw_strict_exact (b Di yi xi x1 x2 : R) :
  0 <= b <= 1 -> 0 < Di -> 0 < yi -> x1 < x2 ->
  0 < 1 + b * Di * (x1 - xi) ->
  exists y1 y2 : R,
    Arps.frw (Fin b) (Fin Di) (Fin yi) (reals [x1; x2]) (Fin xi)
    = ret (reals [y1; y2])
    /\ y2 < y1.
Proof.
  intros Hb HDi Hyi Hx Hpole.
  assert (HbDi : 0 <= b * Di) by (apply Rmult_le_pos; lra).
  assert (Hstep : b * Di * (x1 - xi) <= b * Di * (x2 - xi))
    by (apply Rmult_le_compat_l; lra).
  assert (Hpole2 : 0 < 1 + b * Di * (x2 - xi)) by lra.
  destruct (Req_dec_T b 0) as [-> | Hb0];
    [| destruct (Req_dec_T b 1) as [-> | Hb1]].
  - rewrite frw_dispatch_exp, frwexp_reals. unfold reals. cbn [map].
    do 2 eexists. split; [reflexivity |].
    apply Rmult_lt_compat_l; [assumption |].
    apply exp_increasing. nra.
  - rewrite frw_dispatch_har, frwhar_fl. unfold reals. cbn [map].
    rewrite !fdiv_Fin by lra.
    do 2 eexists. split; [reflexivity |].
    apply Rdiv_lt_contravar; nra.
  - rewrite frw_dispatch_hyp, frwhyp_fl by assumption. unfold reals. cbn [map].
    assert (Hinv : 0 < 1 / b).
    { unfold Rdiv. rewrite Rmult_1_l. apply Rinv_0_lt_compat. lra. }
    rewrite !fpow_Fin_pos by lra.
    rewrite !fdiv_Fin by apply Rpower_nonzero.
    do 2 eexists. split; [reflexivity |].
    apply Rdiv_lt_contravar.
    + assumption.
    + unfold Rpower. apply exp_pos.
    + apply Rlt_Rpower_l; [assumption |]. split; [assumption |].
      assert (HbDi' : 0 < b * Di) by (apply Rmult_lt_0_compat; lra).
      apply Rplus_lt_compat_l. apply Rmult_lt_compat_l; lra.
Qed.

(** C8 (as the code has it): for every exponent of [0,1] and [Di > 0],
    [yi > 0], the forward function is non-increasing between two points
    [x1 < x2] that lie after the pole of the formula, that is where
    [1 + b*Di*(x1-xi) > 0]: the later point never gets the larger value.
    At [b = 0] these are all the reals, [x < xi] included. *)
Theorem frw_nonincreasing_after_pole (b Di yi xi x1 x2 : R) :
  0 <= b <= 1 -> 0 < Di -> 0 < yi -> x1 < x2 ->
  0 < 1 + b * Di * (x1 - xi) ->
  exists y1 y2 : R,
    Arps.frw (Fin b) (Fin Di) (Fin yi) (reals [x1; x2]) (Fin xi)
    = ret (reals [y1; y2])
    /\ y2 <= y1.
Proof.
  intros Hb HDi Hyi Hx Hpole.
  destruct (@frw_strict_exact b Di yi xi x1 x2 Hb HDi Hyi Hx Hpole)
    as [y1 [y2 [H Hlt]]].
  exists y1, y2. split; [exact H | lra].
Qed.

Lemma frw_nonincreasing_after_pole_witness :
  exists y1 y2 : R,
    Arps.frw (Fin (1 / 2)) (Fin 1) (Fin 1) (reals [-1; 0]) (Fin 0)
    = ret (reals [y1; y2])
    /\ y2 <= y1.
Proof.
  apply (@frw_nonincreasing_after_pole (1 / 2) 1 1 0 (-1) 0); lra.
Defined.

(** C8, the claim as stated fails: in harmonic mode with [Di = 1],
    [yi = 1], [xi = 0] the forward value at [x = -3], before the pole at
    [-1], is [-1/2], below the value [1] at [x = 0]; in hyperbolic mode
    with [b = 1/2] and the same parameters the value at [x = -6], before
    the pole at [-2], is [1/4], below the value [1] at [x = -4]. *)
Lemma frw_not_decreasing_before_pole :
  (Arps.frw (Fin 1) (Fin 1) (Fin 1) (reals [-3; 0]) (Fin 0)
   = ret (reals [-1 / 2; 1])
   /\ -1 / 2 < 1)
  /\ (Arps.frw (Fin (1 / 2)) (Fin 1) (Fin 1) (reals [-6; -4]) (Fin 0)
      = ret (reals [1 / 4; 1])
      /\ 1 / 4 < 1).
Proof.
  split; (split; [| lra]).
  - rewrite frw_dispatch_har, frwhar_fl. unfold reals. cbn [map].
    rewrite !fdiv_Fin by lra.
    replace (1 / (1 + 1 * (-3 - 0))) with (-1 / 2) by field.
    replace (1 / (1 + 1 * (0 - 0))) with 1 by field.
    reflexivity.
  - rewrite frw_dispatch_hyp, frwhyp_fl by lra. unfold reals. cbn [map].
    replace (1 / (1 / 2)) with 2 by field.
    rewrite !fpow_2. unfold fsquare. cbn [fmul].
    replace (1 + 1 / 2 * 1 * (-6 - 0)) with (-2) by lra.
    replace (1 + 1 / 2 * 1 * (-4 - 0)) with (-1) by lra.
    rewrite !fdiv_Fin by lra.
    replace (1 / (-2 * -2)) with (1 / 4) by field.
    replace (1 / (-1 * -1)) with 1 by field.
    reflexivity.
Qed.

(** ** Forecast of a dictionary of models *)

(** C10 (the code departs from the claim): on the empty dictionary the
    loop body of [mrun] never runs, [frame] stays unbound and the last
    statement fails on reading it, as claimed.  On a non-empty dictionary
    no table is concatenated: the first item already fails on the name
    [Curve], which [_analysis.py] never binds. *)
Theorem mrun_never_returns
  (Key Model Dates Days Curve Row : Type) (TimeSpan_get : Dates)
  (days : Dates -> Model -> Days) (Curve_run : Model -> Days -> Curve)
  (Curve_set : Curve -> Dates -> Curve)
  (Curve_frame : Curve -> list (nat * Row)) :
  Analysis.mrun_loop days Curve_run Curve_set Curve_frame TimeSpan_get
    (@nil (Key * Model)) 1 None = ret None
  /\ Analysis.mrun TimeSpan_get days Curve_run Curve_set Curve_frame
       (@nil (Key * Model))
     = raise (UnboundLocalError "frame")
  /\ (forall models : list (Key * Model),
        models <> [] ->
        Analysis.mrun TimeSpan_get days Curve_run Curve_set Curve_frame models
        = raise (NameError "Curve")).
Proof.
  split; [reflexivity | split; [reflexivity |]].
  intros [| [key model] rest] Hne; [congruence |]. reflexivity.
Qed.

Lemma mrun_never_returns_witness :
  Analysis.mrun tt (fun (_ : unit) (m : nat) => m)
    (fun (m d : nat) => (m + d)%nat) (fun (c : nat) (_ : unit) => c)
    (fun c : nat => [(0%nat, c); (1%nat, S c)])
    [("A", 1%nat); ("B", 5%nat)]
  = raise (NameError "Curve").
Proof.
  apply (proj2 (proj2 (mrun_never_returns string tt
           (fun (_ : unit) (m : nat) => m)
           (fun (m d : nat) => (m + d)%nat) (fun (c : nat) (_ : unit) => c)
           (fun c : nat => [(0%nat, c); (1%nat, S c)])))).
  discriminate.
Defined.

(** ** Cleaning of the observations *)

Lemma mask_index_rows {A} (a : list A) (mask : list bool) :
  List.length a = List.length mask -> mask_index a mask = mask_rows a mask.
Proof.
  destruct mask as [| m mask]; [| reflexivity].
  destruct a; [reflexivity | discriminate].
Qed.

Lemma mask_rows_filter {A B} (f : B -> bool) (a : list A) (b : list B) :
  List.length a = List.length b ->
  mask_rows a (map f b)
  = ret (map fst (filter (fun p => f (snd p)) (combine a b))).
Proof.
  revert b. induction a as [| u a IH]; intros [| v b] Hlen;
    simpl in *; try discriminate; try reflexivity.
  rewrite IH by congruence. rewrite bind_ret_l.
  destruct (f v); reflexivity.
Qed.

Lemma mask_index_filter {A B} (f : B -> bool) (a : list A) (b : list B) :
  List.length a = List.length b ->
  mask_index a (map f b)
  = ret (map fst (filter (fun p => f (snd p)) (combine a b))).
Proof.
  intros Hlen. rewrite mask_index_rows by now rewrite length_map.
  now apply mask_rows_filter.
Qed.

Lemma mask_index_self {B} (f : B -> bool) (b : list B) :
  mask_index b (map f b) = ret (filter f b).
Proof.
  rewrite mask_index_rows by now rewrite length_map.
  induction b as [| v b IH]; simpl; [reflexivity |].
  rewrite IH, bind_ret_l. destruct (f v); reflexivity.
Qed.

Lemma filter_combine_snd {A B} (f : B -> bool) (a : list A) (b : list B) :
  List.length a = List.length b ->
  map snd (filter (fun p => f (snd p)) (combine a b)) = filter f b.
Proof.
  revert b. induction a as [| u a IH]; intros [| v b] Hlen;
    simpl in *; try discriminate; try reflexivity.
  destruct (f v); simpl; rewrite IH by congruence; reflexivity.
Qed.

Lemma combine_fst_snd {A B} (l : list (A * B)) :
  combine (map fst l) (map snd l) = l.
Proof.
  induction l as [| [a b] l IH]; simpl; [reflexivity | now rewrite IH].
Qed.

(** Both arrays, masked on the second one, are the two columns of the
    filtered pairs. *)
Lemma mask_pairs (f : fl -> bool) (x y : array) :
  List.length x = List.length y ->
  (x' <- mask_index x (map f y) ;; y' <- mask_index y (map f y) ;; ret (x', y'))
  = ret (map fst (filter (fun p => f (snd p)) (combine x y)),
         map snd (filter (fun p => f (snd p)) (combine x y))).
Proof.
  intros Hlen. rewrite mask_index_filter by assumption.
  rewrite bind_ret_l, mask_index_self, bind_ret_l.
  now rewrite filter_combine_snd.
Qed.

(** C6 (as the code has it): on arrays of one length, [Arps.nzero] keeps
    exactly the observations whose [y] is neither [NaN] nor zero, and the
    cleaning step of [Hyperbolic.regress] exactly those whose [y] is not
    zero, each observation dropped from [x] and [y] together; an infinite
    [y] is kept by both. *)
Theorem cleaning_drops_zero (x y : array) :
  List.length x = List.length y ->
  (exists x' y' : array,
     Arps.nzero x y = ret (x', y')
     /\ combine x' y'
        = filter (fun p => negb (isnan (snd p)) && fneb (snd p) (Fin 0))
                 (combine x y)
     /\ Forall (fun v => v <> NaN /\ v <> Fin 0) y')
  /\ (exists x' y' : array,
        Hyperbolic.nonzero x y = ret (x', y')
        /\ combine x' y'
           = filter (fun p => fneb (snd p) (Fin 0)) (combine x y)
        /\ Forall (fun v => v <> Fin 0) y').
Proof.
  intros Hlen. split.
  - do 2 eexists. split; [| split].
    + unfold Arps.nzero.
      apply (mask_pairs (fun v => negb (isnan v) && fneb v (Fin 0)) x y Hlen).
    + apply combine_fst_snd.
    + rewrite (filter_combine_snd
                 (fun v => negb (isnan v) && fneb v (Fin 0)) x y Hlen).
      apply Forall_forall. intros v Hv. apply filter_In in Hv.
      destruct Hv as [_ Hv]. apply andb_true_iff in Hv. destruct Hv as [Hn Hz].
      split; intros ->; [discriminate |].
      unfold fneb in Hz. now rewrite feqb_Fin_refl in Hz.
  - do 2 eexists. split; [| split].
    + unfold Hyperbolic.nonzero.
      apply (mask_pairs (fun v => fneb v (Fin 0)) x y Hlen).
    + apply combine_fst_snd.
    + rewrite (filter_combine_snd (fun v => fneb v (Fin 0)) x y Hlen).
      apply Forall_forall. intros v Hv. apply filter_In in Hv.
      destruct Hv as [_ Hz]. intros ->.
      unfold fneb in Hz. now rewrite feqb_Fin_refl in Hz.
Qed.

Lemma cleaning_drops_zero_witness :
  exists x' y' : array,
    Arps.nzero (reals [1; 2; 3]) [Fin 0; NaN; Fin 7] = ret (x', y')
    /\ combine x' y'
       = filter (fun p => negb (isnan (snd p)) && fneb (snd p) (Fin 0))
                (combine (reals [1; 2; 3]) [Fin 0; NaN; Fin 7])
    /\ Forall (fun v => v <> NaN /\ v <> Fin 0) y'.
Proof.
  apply (@cleaning_drops_zero (reals [1; 2; 3]) [Fin 0; NaN; Fin 7]).
  reflexivity.
Defined.

(** C6, the claim as stated fails: [Arps.nzero] keeps an observation
    whose [y] is infinite, and the cleaning step of [Hyperbolic.regress]
    keeps one whose [y] is [NaN]. *)
Lemma cleaning_keeps_nonfinite :
  Arps.nzero (reals [1; 2]) [PInf; Fin 5] = ret (reals [1; 2], [PInf; Fin 5])
  /\ Hyperbolic.nonzero (reals [1; 2]) [NaN; Fin 5]
     = ret (reals [1; 2], [NaN; Fin 5]).
Proof.
  split.
  - unfold Arps.nzero, reals, fneb. cbn [map].
    rewrite feqb_Fin_neq by lra. reflexivity.
  - unfold Hyperbolic.nonzero, reals, fneb. cbn [map].
    rewrite feqb_Fin_neq by lra. reflexivity.
Qed.

(** ** R-squared *)

Lemma fadd_0_l (v : fl) : fadd (Fin 0) v = v.
Proof. destruct v; simpl; try reflexivity. now rewrite Rplus_0_l. Qed.

Lemma nansum_filter (a : array) :
  nansum a = fsum (filter (fun v => negb (isnan v)) a).
Proof.
  unfold nansum, fsum. induction a as [| v a IH]; simpl; [reflexivity |].
  destruct v; simpl; rewrite IH; try reflexivity. apply fadd_0_l.
Qed.

Lemma filter_map_comm {A B} (g : B -> bool) (f : A -> B) (l : list A) :
  filter g (map f l) = map f (filter (fun a => g (f a)) l).
Proof.
  induction l as [| a l IH]; simpl; [reflexivity |].
  destruct (g (f a)); simpl; now rewrite IH.
Qed.

Lemma nansum_map {A} (f : A -> fl) (l : list A) :
  nansum (map f l) = fsum (map f (filter (fun a => negb (isnan (f a))) l)).
Proof. now rewrite nansum_filter, filter_map_comm. Qed.

Lemma broadcast_same_length (f : fl -> fl -> fl) (a b : array) :
  List.length a = List.length b -> broadcast f a b = ret (zip_with f a b).
Proof.
  intros Hlen. unfold broadcast.
  destruct a as [| u [| u' a]]; destruct b as [| v [| v' b]];
    try discriminate; try reflexivity.
  rewrite Hlen, Nat.eqb_refl. reflexivity.
Qed.

Lemma zip_with_combine_flip (f : fl -> fl -> fl) (a b : array) :
  zip_with f b a = map (fun p => f (snd p) (fst p)) (combine a b).
Proof.
  revert b. induction a as [| u a IH]; intros [| v b]; simpl;
    try reflexivity.
  now rewrite IH.
Qed.

Lemma isnan_square_diff (a b : fl) :
  number_or_nan a -> number_or_nan b ->
  isnan (fsquare (fsub a b)) = isnan a || isnan b.
Proof.
  unfold number_or_nan.
  destruct a, b; simpl; intros Ha Hb; try discriminate; reflexivity.
Qed.

Lemma fsum_finite (l : array) :
  Forall (fun v => isfinite v = true) l -> exists s : R, fsum l = Fin s.
Proof.
  unfold fsum. induction 1 as [| v l Hv _ [s IH]]; simpl.
  - now exists 0.
  - rewrite IH. destruct v; try discriminate. simpl. eauto.
Qed.

Lemma present_finite (yobs : array) :
  Forall number_or_nan yobs ->
  Forall (fun v => isfinite v = true)
         (filter (fun v => negb (isnan v)) yobs).
Proof.
  intros H. apply Forall_forall. intros v Hv.
  apply filter_In in Hv. destruct Hv as [Hin Hn].
  rewrite Forall_forall in H. specialize (H v Hin). unfold number_or_nan in H.
  destruct v; simpl in *; congruence.
Qed.

Lemma isnan_square_diff_nan (v m : fl) :
  isnan v = true -> isnan (fsquare (fsub v m)) = true.
Proof. destruct v; try discriminate. reflexivity. Qed.

Lemma filter_none {A} (f : A -> bool) (l : list A) :
  (forall a, In a l -> f a = false) -> filter f l = [].
Proof.
  induction l as [| a l IH]; intros H; simpl; [reflexivity |].
  rewrite (H a (or_introl eq_refl)). apply IH.
  intros b Hb. apply H. now right.
Qed.

(** The entries that enter the total sum of squares are those of [yobs]
    that are not [NaN]. *)
Lemma total_ss_entries (yobs : array) :
  Forall number_or_nan yobs ->
  filter (fun v => negb (isnan (fsquare (fsub v (nanmean yobs))))) yobs
  = filter (fun v => negb (isnan v)) yobs.
Proof.
  intros Hy. unfold nanmean, nancount. rewrite nansum_filter.
  destruct (fsum_finite (present_finite Hy)) as [s Hs]. rewrite Hs.
  destruct (filter (fun v => negb (isnan v)) yobs) as [| w obs] eqn:E.
  - apply filter_none. intros v Hin.
    rewrite isnan_square_diff_nan; [reflexivity |].
    destruct (isnan v) eqn:Ev; [reflexivity |].
    assert (Hf : In v (filter (fun v => negb (isnan v)) yobs))
      by (apply filter_In; split; [assumption | now rewrite Ev]).
    rewrite E in Hf. destruct Hf.
  - rewrite fdiv_Fin by (apply not_0_INR; discriminate).
    rewrite <- E. apply filter_ext_in. intros v Hin.
    rewrite Forall_forall in Hy. rewrite isnan_square_diff.
    + simpl. now rewrite orb_false_r.
    + now apply Hy.
    + reflexivity.
Qed.

(** C5 (as the code has it): on arrays of one length whose entries are
    numbers or [NaN], [rsquared] returns
    [1 - sum (yobs-ycal)^2 / sum (yobs-mean)^2] where the numerator runs
    over the indices at which neither array is [NaN], while the
    denominator and the mean run over every entry of [yobs] that is not
    [NaN], whatever [ycal] holds there. *)
Theorem rsquared_nan_aware (ycal yobs : array) :
  List.length ycal = List.length yobs ->
  Forall number_or_nan ycal ->
  Forall number_or_nan yobs ->
  Arps.rsquared ycal yobs
  = ret (let kept := filter Spec.both_present (combine ycal yobs) in
         let obs := filter (fun v => negb (isnan v)) yobs in
         let m := fdiv (fsum obs) (Fin (INR (List.length obs))) in
         fsub (Fin 1)
           (fdiv (fsum (map (fun p => fsquare (fsub (snd p) (fst p))) kept))
                 (fsum (map (fun v => fsquare (fsub v m)) obs)))).
Proof.
  intros Hlen Hc Ho. rewrite rsquared_squares.
  rewrite broadcast_same_length by congruence. rewrite bind_ret_l.
  rewrite zip_with_combine_flip, map_map. rewrite !nansum_map.
  rewrite (total_ss_entries Ho).
  assert (Hkept :
    filter (fun p : fl * fl => negb (isnan (fsquare (fsub (snd p) (fst p)))))
           (combine ycal yobs)
    = filter Spec.both_present (combine ycal yobs)).
  { apply filter_ext_in. intros [c o] Hin. simpl.
    rewrite Forall_forall in Hc, Ho.
    rewrite isnan_square_diff.
    - unfold Spec.both_present. simpl.
      destruct (isnan c), (isnan o); reflexivity.
    - apply Ho. eapply in_combine_r; eassumption.
    - apply Hc. eapply in_combine_l; eassumption. }
  rewrite Hkept. unfold nanmean, nancount. rewrite nansum_filter.
  reflexivity.
Qed.

Lemma rsquared_nan_aware_witness :
  Arps.rsquared [NaN; Fin 1; Fin 2] [Fin 5; Fin 1; Fin 3]
  = ret (let kept := filter Spec.both_present
                       (combine [NaN; Fin 1; Fin 2] [Fin 5; Fin 1; Fin 3]) in
         let obs := filter (fun v => negb (isnan v)) [Fin 5; Fin 1; Fin 3] in
         let m := fdiv (fsum obs) (Fin (INR (List.length obs))) in
         fsub (Fin 1)
           (fdiv (fsum (map (fun p => fsquare (fsub (snd p) (fst p))) kept))
                 (fsum (map (fun v => fsquare (fsub v m)) obs)))).
Proof.
  apply (@rsquared_nan_aware [NaN; Fin 1; Fin 2] [Fin 5; Fin 1; Fin 3]).
  - reflexivity.
  - repeat constructor.
  - repeat constructor.
Defined.

(** C5, the claim as stated fails: with [ycal = [NaN; 1; 2]] and
    [yobs = [5; 1; 3]] the code keeps the first observation in the mean and
    in the denominator and returns [7/8]; leaving the index out of both
    sums gives [1/2]. *)
Lemma rsquared_not_joint :
  Arps.rsquared [NaN; Fin 1; Fin 2] [Fin 5; Fin 1; Fin 3] = ret (Fin (7 / 8))
  /\ Spec.rsquared_joint [NaN; Fin 1; Fin 2] [Fin 5; Fin 1; Fin 3]
     = Fin (1 / 2)
  /\ 7 / 8 <> 1 / 2.
Proof.
  split; [| split; [| lra]].
  - rewrite rsquared_squares.
    unfold broadcast, nanmean, nancount, nansum, fsum, fsquare.
    cbn -[fdiv]. rewrite fdiv_Fin by lra. cbn -[fdiv].
    match goal with
    | |- context [fdiv (Fin ?a) (Fin ?b)] =>
        replace b with 8 by field; replace a with 1 by field
    end.
    rewrite fdiv_Fin by lra. cbn.
    replace (1 + - (1 / 8)) with (7 / 8) by lra. reflexivity.
  - unfold Spec.rsquared_joint, Spec.both_present, fsum, fsquare.
    cbn -[fdiv]. rewrite fdiv_Fin by lra. cbn -[fdiv].
    match goal with
    | |- context [fdiv (Fin ?a) (Fin ?b)] =>
        replace b with 2 by field; replace a with 1 by field
    end.
    rewrite fdiv_Fin by lra. cbn.
    replace (1 + - (1 / 2)) with (1 / 2) by lra. reflexivity.
Qed.

(** ** Fitting *)

Section FitFacts.

Variable linregress : array -> array -> res LinregressResult.

(** When least squares raises, [Arps.regress] logs the failure and returns
    [None] to its caller. *)
Lemma regress_failure_logged (x y : array) (e : exn) :
  linregress x y = Raise e ->
  Arps.regress linregress x y
  = (["Error occurred: " ++ Arps.str_exn e], Ok None).
Proof. intros H. unfold Arps.regress. rewrite H. reflexivity. Qed.

Lemma regress_success (x y : array) (l : LinregressResult) :
  linregress x y = Ok l -> Arps.regress linregress x y = ret (Some l).
Proof. intros H. unfold Arps.regress. rewrite H. reflexivity. Qed.

Lemma invexp_raises (x y : array) (xi : option fl) :
  Arps.invexp linregress x y xi = raise (NameError "self").
Proof. reflexivity. Qed.

Lemma invhyp_raises (x y : array) (xi : option fl) (b : fl) :
  Arps.invhyp linregress x y xi b = raise (NameError "self").
Proof. reflexivity. Qed.

Lemma invhar_raises (x y : array) (xi : option fl) :
  Arps.invhar linregress x y xi = raise (NameError "self").
Proof. reflexivity. Qed.

End FitFacts.

Section HyperbolicFacts.

Variable xp : fl.
Variable xshift : array -> array -> option fl -> M (array * array).
Variable GenModel_regress : array -> array -> M (option LinregressResult).
Variable rvalue : fl -> fl -> fl -> array -> array -> M fl.

(** The assignment of line 34 never binds [Di,yi]. *)
Lemma line34_unpack_raises (linear : option LinregressResult) :
  exists e : exn,
    (t <- Hyperbolic.line34 xp linear ;; Hyperbolic.unpack2 t) = raise e.
Proof.
  unfold Hyperbolic.line34. destruct linear as [l |].
  - unfold pydiv. destruct (feqb xp (Fin 0)).
    + now exists ZeroDivisionError.
    + now exists ValueError.
  - now exists (AttributeError "intercept").
Qed.

Lemma bind_outcome_raise {A B} (m : M A) (k : A -> M B) :
  (forall a, exists e, outcome (k a) = Raise e) ->
  exists e, outcome (bind m k) = Raise e.
Proof.
  intros Hk. destruct m as [lg [a | e]]; simpl.
  - destruct (Hk a) as [e He]. destruct (k a) as [lg' r]. simpl in *. eauto.
  - eauto.
Qed.

Lemma regress_never_returns (x yobs : array) (xi : option fl) :
  exists e : exn,
    outcome (Hyperbolic.regress xp xshift GenModel_regress rvalue x yobs xi)
    = Raise e.
Proof.
  unfold Hyperbolic.regress.
  apply bind_outcome_raise. intros p.
  apply bind_outcome_raise. intros [x' y'].
  apply bind_outcome_raise. intros linear.
  destruct (line34_unpack_raises linear) as [e He].
  unfold bind in *.
  destruct (Hyperbolic.line34 xp linear) as [lg [t | e']].
  - destruct (Hyperbolic.unpack2 t) as [lg' [dy | e']].
    + discriminate.
    + simpl. eauto.
  - simpl. eauto.
Qed.

End HyperbolicFacts.

(** C2 (the code departs from the claim): [Hyperbolic.regress] regresses
    the linearized observations, but its line 34 builds the three items
    [0], [slope/intercept/b] and [intercept**(-1/b)] and unpacks them into
    the two names [Di,yi]: the call raises and never returns the
    back-transformed parameters. *)
Theorem hyperbolic_fit_never_returns
  (xp : fl) (xshift : array -> array -> option fl -> M (array * array))
  (GenModel_regress : array -> array -> M (option LinregressResult))
  (rvalue : fl -> fl -> fl -> array -> array -> M fl)
  (x yobs : array) (xi : option fl) :
  (exists e : exn,
     outcome (Hyperbolic.regress xp xshift GenModel_regress rvalue x yobs xi)
     = Raise e)
  /\ (forall l : LinregressResult,
        feqb xp (Fin 0) = false ->
        Hyperbolic.line34 xp (Some l)
        = ret [Fin 0; fdiv (fdiv (slope l) (intercept l)) xp;
               fpow (intercept l) (fdiv (Fin (-1)) xp)]
        /\ (t <- Hyperbolic.line34 xp (Some l) ;; Hyperbolic.unpack2 t)
           = raise ValueError
        /\ (forall (x1 y1 x2 y2 : array) (lg : list string),
              xshift x yobs xi = ret (x1, y1) ->
              Hyperbolic.nonzero x1 y1 = ret (x2, y2) ->
              GenModel_regress x2 (Hyperbolic.linearize xp y2)
              = (lg, Ok (Some l)) ->
              Hyperbolic.regress xp xshift GenModel_regress rvalue x yobs xi
              = (lg, Raise ValueError))).
Proof.
  split; [apply regress_never_returns |].
  intros l Hxp.
  assert (H34 : Hyperbolic.line34 xp (Some l)
                = ret [Fin 0; fdiv (fdiv (slope l) (intercept l)) xp;
                       fpow (intercept l) (fdiv (Fin (-1)) xp)]).
  { unfold Hyperbolic.line34, pydiv. rewrite Hxp. reflexivity. }
  split; [exact H34 | split].
  - rewrite H34. reflexivity.
  - intros x1 y1 x2 y2 lg Hs Hn Hr. unfold Hyperbolic.regress.
    rewrite Hs, bind_ret_l. simpl fst. simpl snd.
    rewrite Hn, bind_ret_l. rewrite Hr. unfold bind at 1.
    rewrite H34. simpl. now rewrite app_nil_r.
Qed.

Lemma hyperbolic_fit_never_returns_witness :
  Hyperbolic.regress (Fin (1 / 2)) (fun x y _ => ret (x, y))
    (fun _ _ => ret (Some (mkLinregress (Fin 1) (Fin 1) NaN NaN NaN NaN)))
    (fun _ _ _ _ _ => ret NaN) (reals [0; 1]) (reals [1; 1 / 2]) None
  = ([], Raise ValueError).
Proof.
  refine (proj2 (proj2 (proj2 (hyperbolic_fit_never_returns
            (Fin (1 / 2)) (fun x y _ => ret (x, y))
            (fun _ _ => ret (Some (mkLinregress (Fin 1) (Fin 1) NaN NaN NaN NaN)))
            (fun _ _ _ _ _ => ret NaN) (reals [0; 1]) (reals [1; 1 / 2]) None)
          (mkLinregress (Fin 1) (Fin 1) NaN NaN NaN NaN) _))
          (reals [0; 1]) (reals [1; 1 / 2])
          (reals [0; 1]) (reals [1; 1 / 2]) [] eq_refl _ eq_refl).
  - apply feqb_Fin_neq. lra.
  - unfold Hyperbolic.nonzero, reals, fneb. cbn [map].
    rewrite !feqb_Fin_neq by lra. reflexivity.
Defined.

(** C3 (the code departs from the claim): when least squares raises,
    [Arps.regress] does log the failure and return [None]; but no fitting
    operation goes on to the zero-valued result: [Arps.invexp],
    [Arps.invhyp] and [Arps.invhar] raise [NameError] on every input, and
    [Hyperbolic.regress], handed an absent linear result, raises
    [AttributeError] at line 34. *)
Theorem fitting_failure_raises :
  (forall (linregress : array -> array -> res LinregressResult)
          (x y : array) (e : exn),
      linregress x y = Raise e ->
      Arps.regress linregress x y
      = (["Error occurred: " ++ Arps.str_exn e], Ok None))
  /\ (forall (linregress : array -> array -> res LinregressResult)
             (x y : array) (xi : option fl) (b : fl),
        Arps.invexp linregress x y xi = raise (NameError "self")
        /\ Arps.invhyp linregress x y xi b = raise (NameError "self")
        /\ Arps.invhar linregress x y xi = raise (NameError "self"))
  /\ (forall (xp : fl)
             (xshift : array -> array -> option fl -> M (array * array))
             (GenModel_regress : array -> array -> M (option LinregressResult))
             (rvalue : fl -> fl -> fl -> array -> array -> M fl)
             (x yobs : array) (xi : option fl)
             (x1 y1 x2 y2 : array) (lg : list string),
        xshift x yobs xi = ret (x1, y1) ->
        Hyperbolic.nonzero x1 y1 = ret (x2, y2) ->
        GenModel_regress x2 (Hyperbolic.linearize xp y2) = (lg, Ok None) ->
        Hyperbolic.regress xp xshift GenModel_regress rvalue x yobs xi
        = (lg, Raise (AttributeError "intercept"))).
Proof.
  split; [| split].
  - intros linregress x y e H. now apply regress_failure_logged.
  - intros linregress x y xi b. repeat split.
  - intros xp xshift GR rvalue x yobs xi x1 y1 x2 y2 lg Hs Hn Hr.
    unfold Hyperbolic.regress.
    rewrite Hs, bind_ret_l. simpl fst. simpl snd.
    rewrite Hn, bind_ret_l. rewrite Hr. simpl. now rewrite app_nil_r.
Qed.

Lemma fitting_failure_raises_witness :
  Hyperbolic.regress (Fin (1 / 2)) (fun x y _ => ret (x, y))
    (Arps.regress (fun _ _ => Raise (LibraryError "Inputs must not be empty.")))
    (fun _ _ _ _ _ => ret NaN) (reals [1]) (reals [0]) None
  = (["Error occurred: Inputs must not be empty."],
     Raise (AttributeError "intercept")).
Proof.
  refine (proj2 (proj2 fitting_failure_raises)
            (Fin (1 / 2)) (fun x y _ => ret (x, y))
            (Arps.regress
               (fun _ _ => Raise (LibraryError "Inputs must not be empty.")))
            (fun _ _ _ _ _ => ret NaN) (reals [1]) (reals [0]) None
            (reals [1]) (reals [0]) [] []
            ["Error occurred: Inputs must not be empty."] eq_refl _ eq_refl).
  unfold Hyperbolic.nonzero, reals, fneb. cbn [map].
  rewrite feqb_Fin_refl. reflexivity.
Defined.

(** * Further properties of the code *)

(** ** Mode names and exponents *)

Lemma str_in_cons (s a : string) (t : list string) :
  str_in s (a :: t) = String.eqb s a || str_in s t.
Proof. reflexivity. Qed.

Lemma lower_idempotent (s : string) : lower (lower s) = lower s.
Proof.
  induction s as [| c s IH]; simpl; [reflexivity |].
  rewrite IH. f_equal.
  assert (H : forall n, (n < 256)%nat ->
            lower_ascii (lower_ascii (ascii_of_nat n))
            = lower_ascii (ascii_of_nat n)).
  { intros n Hn. do 256 (destruct n as [| n]; [reflexivity |]). lia. }
  rewrite <- (ascii_nat_embedding c). apply H. apply nat_ascii_bounded.
Qed.

(** X1: [get_b (get_mode b)] gives [b] back exactly at the three exponents
    0, 0.5 and 1; every other exponent comes back as 0.5. *)
Theorem get_b_get_mode_fixpoints (v : fl) :
  (Arps.get_b (Arps.get_mode v) = ret (Some v)
   <-> v = Fin 0 \/ v = Fin (5 / 10) \/ v = Fin 1)
  /\ (v <> Fin 0 -> v <> Fin 1 ->
      Arps.get_b (Arps.get_mode v) = ret (Some (Fin (5 / 10)))).
Proof.
  unfold Arps.get_mode.
  destruct (feqb v (Fin 0)) eqn:E0.
  - apply feqb_Fin_true in E0. subst v. split; [| congruence].
    split; [auto | reflexivity].
  - destruct (feqb v (Fin 1)) eqn:E1.
    + apply feqb_Fin_true in E1. subst v. split; [| congruence].
      split; [auto | reflexivity].
    + split; [| reflexivity]. split.
      * intros H. right. left. change (ret (Some (Fin (5 / 10))) = ret (Some v)) in H.
        now inversion H.
      * intros [-> | [-> | ->]]; try reflexivity.
        -- now rewrite feqb_Fin_refl in E0.
        -- now rewrite feqb_Fin_refl in E1.
Qed.

(** X2: every name of [Arps.modes] is recognized by [get_b] without a log
    record, and [get_mode] maps the exponent found back to that name; the
    three-letter code of the [mode] property is recognized as well and
    stands for the same exponent. *)
Theorem modes_roundtrip (m : string) :
  In m Score.modes ->
  exists b : fl,
    Arps.get_b m = ret (Some b)
    /\ Arps.get_mode b = m
    /\ Arps.get_b (Arps.mode b) = ret (Some b).
Proof.
  intros [<- | [<- | [<- | []]]].
  - exists (Fin 0). split; [reflexivity |].
    rewrite mode_exp. split; [now apply get_mode_exponential | reflexivity].
  - exists (Fin (5 / 10)). split; [reflexivity |].
    rewrite mode_hyp by lra.
    split; [apply get_mode_hyperbolic; lra | reflexivity].
  - exists (Fin 1). split; [reflexivity |].
    rewrite mode_har. split; [now apply get_mode_harmonic | reflexivity].
Qed.

Lemma modes_roundtrip_witness :
  exists b : fl,
    Arps.get_b "Harmonic" = ret (Some b)
    /\ Arps.get_mode b = "Harmonic"
    /\ Arps.get_b (Arps.mode b) = ret (Some b).
Proof.
  apply (@modes_roundtrip "Harmonic"). simpl. auto.
Defined.

Lemma get_b_cases (m : string) :
  (str_in (lower m) Score.known_names = true
   /\ exists b : fl,
        Arps.get_b m = ret (Some b)
        /\ (b = Fin 0 \/ b = Fin (5 / 10) \/ b = Fin 1)
        /\ Arps.mode b = substring 0 3 (lower m))
  \/ (str_in (lower m) Score.known_names = false
      /\ Arps.get_b m
         = (["Error occurred: Available modes are Exponential, Hyperbolic, and Harmonic."],
            Ok None)).
Proof.
  unfold Arps.get_b, Score.known_names. rewrite !str_in_cons.
  assert (Hnil : forall s, str_in s [] = false) by reflexivity.
  rewrite !Hnil, !orb_false_r.
  destruct (String.eqb (lower m) "exponential") eqn:E1.
  { left. split; [reflexivity |]. exists (Fin 0). simpl.
    apply String.eqb_eq in E1. rewrite E1, mode_exp. auto. }
  destruct (String.eqb (lower m) "exp") eqn:E2.
  { left. split; [reflexivity |]. exists (Fin 0). simpl.
    apply String.eqb_eq in E2. rewrite E2, mode_exp. auto. }
  destruct (String.eqb (lower m) "hyperbolic") eqn:E3.
  { left. split; [reflexivity |]. exists (Fin (5 / 10)). simpl.
    apply String.eqb_eq in E3. rewrite E3, mode_hyp by lra. auto. }
  destruct (String.eqb (lower m) "hyp") eqn:E4.
  { left. split; [reflexivity |]. exists (Fin (5 / 10)). simpl.
    apply String.eqb_eq in E4. rewrite E4, mode_hyp by lra. auto. }
  destruct (String.eqb (lower m) "harmonic") eqn:E5.
  { left. split; [reflexivity |]. exists (Fin 1). simpl.
    apply String.eqb_eq in E5. rewrite E5, mode_har. auto. }
  destruct (String.eqb (lower m) "har") eqn:E6.
  { left. split; [reflexivity |]. exists (Fin 1). simpl.
    apply String.eqb_eq in E6. rewrite E6, mode_har. auto. }
  right. split; reflexivity.
Qed.

(** X3: [get_b] never raises.  It answers by the lower-case form of the
    name alone; a name that is none of the six recognized ones gets [None]
    and exactly one log record, a recognized one gets 0, 0.5 or 1 and no
    record. *)
Theorem get_b_unknown_logged (m : string) :
  Arps.get_b (lower m) = Arps.get_b m
  /\ (exists r : option fl, outcome (Arps.get_b m) = Ok r)
  /\ (str_in (lower m) Score.known_names = false <->
      Arps.get_b m
      = (["Error occurred: Available modes are Exponential, Hyperbolic, and Harmonic."],
         Ok None))
  /\ (str_in (lower m) Score.known_names = true <->
      exists b : fl,
        Arps.get_b m = ret (Some b)
        /\ (b = Fin 0 \/ b = Fin (5 / 10) \/ b = Fin 1)).
Proof.
  split; [| split; [| split]].
  - unfold Arps.get_b. now rewrite lower_idempotent.
  - destruct (get_b_cases m) as [[_ [b [H _]]] | [_ H]]; rewrite H; simpl; eauto.
  - destruct (get_b_cases m) as [[Hk [b [H _]]] | [Hk H]]; rewrite H, Hk.
    + split; discriminate.
    + tauto.
  - destruct (get_b_cases m) as [[Hk [b [H [Hb _]]]] | [Hk H]]; rewrite H, Hk.
    + split; [eauto | reflexivity].
    + split; [discriminate |]. intros [b [Hb _]]. discriminate.
Qed.

(** X4: whatever [option] is given, a pair it returns with an exponent is
    consistent: the three-letter code of the exponent is that of the
    returned mode name.  An exponent given by the caller overrides the
    mode name. *)
Theorem option_consistent (mode : option string) (b : option fl) :
  (forall (lg : list string) (m' : string) (b' : fl),
      Arps.option_ mode b = (lg, Ok (m', Some b')) ->
      Arps.mode b' = substring 0 3 (lower m'))
  /\ (forall b0 : fl,
        Arps.option_ mode (Some b0) = ret (Arps.get_mode b0, Some b0)).
Proof.
  split.
  - intros lg m' b' H. destruct mode as [m |], b as [b0 |]; simpl in H.
    + inversion H; subst. reflexivity.
    + destruct (get_b_cases m) as [[_ [b1 [Hg [_ Hm]]]] | [_ Hg]];
        rewrite Hg in H; simpl in H; inversion H; subst. exact Hm.
    + inversion H; subst. reflexivity.
    + inversion H; subst. apply mode_exp.
  - intros b0. destruct mode; reflexivity.
Qed.

(** ** Shifting and masking of observations *)

Lemma mask_rows_mismatch {A} (a : list A) (mask : list bool) :
  List.length a <> List.length mask -> mask_rows a mask = raise IndexError.
Proof.
  revert mask. induction a as [| v a IH]; intros [| m mask] H; simpl in *;
    try reflexivity; try congruence.
  rewrite IH by congruence. reflexivity.
Qed.

Lemma mask_index_mismatch {A} (a : list A) (mask : list bool) :
  mask <> [] -> List.length a <> List.length mask ->
  mask_index a mask = raise IndexError.
Proof.
  intros Hne Hlen. destruct mask as [| m mask]; [congruence |].
  unfold mask_index. now apply mask_rows_mismatch.
Qed.

Lemma filter_combine_fst {A B} (f : A -> bool) (a : list A) (b : list B) :
  List.length a = List.length b ->
  map fst (filter (fun p => f (fst p)) (combine a b)) = filter f a.
Proof.
  revert b. induction a as [| u a IH]; intros [| v b] Hlen;
    simpl in *; try discriminate; try reflexivity.
  destruct (f u); simpl; rewrite IH by congruence; reflexivity.
Qed.

Lemma filter_combine_swap {A B} (f : A -> bool) (a : list A) (b : list B) :
  map fst (filter (fun p => f (snd p)) (combine b a))
  = map snd (filter (fun p => f (fst p)) (combine a b)).
Proof.
  revert b. induction a as [| u a IH]; intros [| v b]; simpl;
    try reflexivity.
  destruct (f u); simpl; now rewrite IH.
Qed.

Lemma combine_map_fst {A B C} (g : A -> C) (l : list (A * B)) :
  combine (map g (map fst l)) (map snd l)
  = map (fun p => (g (fst p), snd p)) l.
Proof.
  induction l as [| [a b] l IH]; simpl; [reflexivity | now rewrite IH].
Qed.

(** X5: on arrays of one length, [shift] with an origin [xi] keeps exactly
    the observations with [x >= xi] (an [x] that is [NaN] is dropped),
    each pair together and in order, re-bases their [x] to [x - xi], and
    so returns arrays of one length whose [x] are all non-negative. *)
Theorem shift_aligned (x y : array) (xi : R) :
  List.length x = List.length y ->
  exists x' y' : array,
    Arps.shift x y (Some (Fin xi)) = ret (x', y')
    /\ combine x' y'
       = map (fun p => (fsub (fst p) (Fin xi), snd p))
             (filter (fun p => fgeb (fst p) (Fin xi)) (combine x y))
    /\ List.length x' = List.length y'
    /\ Forall (fun v => v = PInf \/ exists r : R, v = Fin r /\ 0 <= r) x'.
Proof.
  intros Hlen.
  set (f := fun t : fl => fgeb t (Fin xi)).
  set (kept := filter (fun p : fl * fl => f (fst p)) (combine x y)).
  exists (map (fun t => fsub t (Fin xi)) (map fst kept)), (map snd kept).
  split; [| split; [| split]].
  - unfold Arps.shift. fold f.
    rewrite mask_index_self, bind_ret_l.
    rewrite (mask_index_filter f y x) by congruence.
    rewrite bind_ret_l. rewrite filter_combine_swap.
    unfold kept. now rewrite (filter_combine_fst f x y Hlen).
  - apply (combine_map_fst (fun t => fsub t (Fin xi)) kept).
  - now rewrite !length_map.
  - rewrite map_map. apply Forall_forall. intros v Hv.
    apply in_map_iff in Hv. destruct Hv as [[a b] [<- Hin]]. simpl.
    unfold kept in Hin. apply filter_In in Hin. destruct Hin as [_ Hge].
    unfold f in Hge. simpl in Hge.
    destruct a as [r | | |]; simpl in *; try discriminate.
    + right. exists (r + - xi). split; [reflexivity |].
      destruct (Rle_dec xi r); [lra | discriminate].
    + now left.
Qed.

Lemma shift_aligned_witness :
  exists x' y' : array,
    Arps.shift (reals [1; 5; 9]) (reals [10; 20; 30]) (Some (Fin 5))
    = ret (x', y')
    /\ combine x' y'
       = map (fun p => (fsub (fst p) (Fin 5), snd p))
             (filter (fun p => fgeb (fst p) (Fin 5))
                     (combine (reals [1; 5; 9]) (reals [10; 20; 30])))
    /\ List.length x' = List.length y'
    /\ Forall (fun v => v = PInf \/ exists r : R, v = Fin r /\ 0 <= r) x'.
Proof.
  apply (@shift_aligned (reals [1; 5; 9]) (reals [10; 20; 30]) 5).
  reflexivity.
Defined.

(** X6: on arrays of different lengths a mask that is not empty is
    refused: [nzero] raises [IndexError] unless [y] is empty, and [shift]
    with an origin raises it unless [x] is empty.  The empty mask is not
    checked: [nzero] on an empty [y], and [shift] with an origin on an
    empty [x], return two empty arrays whatever the other array holds.
    Without an origin [shift] hands the two arrays back as they are. *)
Theorem masking_length_mismatch (x y : array) :
  List.length x <> List.length y ->
  (y <> [] -> Arps.nzero x y = raise IndexError)
  /\ (y = [] -> Arps.nzero x y = ret ([], []))
  /\ (forall xi : fl,
        (x <> [] -> Arps.shift x y (Some xi) = raise IndexError)
        /\ (x = [] -> Arps.shift x y (Some xi) = ret ([], [])))
  /\ Arps.shift x y None = ret (x, y).
Proof.
  intros Hlen. split; [| split; [| split]].
  - intros Hy. unfold Arps.nzero. rewrite mask_index_mismatch; [reflexivity | |].
    + destruct y; [congruence | discriminate].
    + now rewrite length_map.
  - intros ->. reflexivity.
  - intros xi. split.
    + intros Hx. unfold Arps.shift.
      rewrite mask_index_self, bind_ret_l.
      rewrite mask_index_mismatch; [reflexivity | |].
      * destruct x; [congruence | discriminate].
      * rewrite length_map. congruence.
    + intros ->. reflexivity.
  - reflexivity.
Qed.

Lemma masking_length_mismatch_witness :
  (reals [3] <> [] -> Arps.nzero (reals [1; 2]) (reals [3]) = raise IndexError)
  /\ (reals [3] = [] -> Arps.nzero (reals [1; 2]) (reals [3]) = ret ([], []))
  /\ (forall xi : fl,
        (reals [1; 2] <> [] ->
         Arps.shift (reals [1; 2]) (reals [3]) (Some xi) = raise IndexError)
        /\ (reals [1; 2] = [] ->
            Arps.shift (reals [1; 2]) (reals [3]) (Some xi) = ret ([], [])))
  /\ Arps.shift (reals [1; 2]) (reals [3]) None
     = ret (reals [1; 2], reals [3]).
Proof.
  apply (@masking_length_mismatch (reals [1; 2]) (reals [3])).
  simpl. lia.
Defined.

(** ** Forward and cumulative evaluation: further facts *)

Lemma frw_dispatch (b Di yi : fl) (x : array) (xi : fl) :
  Arps.frw b Di yi x xi
  = if feqb b (Fin 0) then Arps.frwexp Di yi x xi
    else if feqb b (Fin 1) then Arps.frwhar Di yi x xi
    else Arps.frwhyp Di yi x xi b.
Proof.
  unfold Arps.frw, Arps.mode, Arps.get_mode, Arps.inp.
  destruct (feqb b (Fin 0)); simpl; [reflexivity |].
  destruct (feqb b (Fin 1)); simpl; [reflexivity |].
  unfold Arps.call5. simpl.
  destruct (Arps.frwhyp Di yi x xi b) as [l r]. reflexivity.
Qed.

Lemma cum_dispatch (b Di yi : fl) (x : array) (xi : fl) :
  Arps.cum b Di yi x xi
  = if feqb b (Fin 0) then Arps.cumexp Di yi x xi
    else if feqb b (Fin 1) then Arps.cumhar Di yi x xi
    else Arps.cumhyp Di yi x xi b.
Proof.
  unfold Arps.cum, Arps.mode, Arps.get_mode, Arps.inp.
  destruct (feqb b (Fin 0)); simpl.
  - unfold Arps.call4. simpl.
    destruct (Arps.cumexp Di yi x xi) as [l r]. reflexivity.
  - destruct (feqb b (Fin 1)); simpl.
    + unfold Arps.call4. simpl.
      destruct (Arps.cumhar Di yi x xi) as [l r]. reflexivity.
    + unfold Arps.call5. simpl.
      destruct (Arps.cumhyp Di yi x xi b) as [l r]. reflexivity.
Qed.

Lemma fsub_fsub_0 (t : fl) (xi : R) :
  fsub (fsub t (Fin xi)) (Fin 0) = fsub t (Fin xi).
Proof.
  destruct t as [r | | |]; simpl; try reflexivity. f_equal. lra.
Qed.

Lemma map_rebased {B} (g : fl -> B) (x : array) (xi : R) :
  map (fun t => g (fsub t (Fin 0))) (map (fun t => fsub t (Fin xi)) x)
  = map (fun t => g (fsub t (Fin xi))) x.
Proof.
  rewrite map_map. apply map_ext. intros t. now rewrite fsub_fsub_0.
Qed.

(** X7: evaluation depends on [x] and [xi] through [x - xi] only: on the
    re-based array [x - xi] with origin 0, [frw] and [cum] give what they
    give on [x] with origin [xi], for every exponent and all parameters.
    So a model fitted on the output of [shift] is evaluated on the
    original time axis by passing the same [xi]. *)
Theorem evaluation_rebased (b Di yi : fl) (x : array) (xi : R) :
  Arps.frw b Di yi (map (fun t => fsub t (Fin xi)) x) (Fin 0)
  = Arps.frw b Di yi x (Fin xi)
  /\ Arps.cum b Di yi (map (fun t => fsub t (Fin xi)) x) (Fin 0)
     = Arps.cum b Di yi x (Fin xi).
Proof.
  rewrite !frw_dispatch, !cum_dispatch.
  unfold Arps.frwexp, Arps.frwhar, Arps.frwhyp,
    Arps.cumexp, Arps.cumhar, Arps.cumhyp.
  split.
  - destruct (feqb b (Fin 0)); [| destruct (feqb b (Fin 1))].
    + now rewrite (map_rebased (fun d => fmul yi (fexp (fmul (fneg Di) d)))).
    + now rewrite (map_rebased (fun d => fdiv yi (fadd (Fin 1) (fmul Di d)))).
    + now rewrite (map_rebased (fun d => fadd (Fin 1) (fmul (fmul b Di) d))).
  - destruct (feqb b (Fin 0)); [| destruct (feqb b (Fin 1))].
    + destruct (pydiv yi Di) as [lg [q | e]]; [| reflexivity].
      unfold bind.
      now rewrite (map_rebased
                     (fun d => fmul q (fsub (Fin 1) (fexp (fmul (fneg Di) d))))).
    + destruct (pydiv yi Di) as [lg [q | e]]; [| reflexivity].
      unfold bind.
      now rewrite (map_rebased
                     (fun d => fmul q (flog (fadd (Fin 1) (fmul Di d))))).
    + now rewrite (map_rebased (fun d => fadd (Fin 1) (fmul (fmul b Di) d))).
Qed.

Lemma Rpower_1_base (c : R) : Rpower 1 c = 1.
Proof. unfold Rpower. now rewrite ln_1, Rmult_0_r, exp_0. Qed.

Lemma inv_pos (b : R) : 0 < b -> 0 < 1 / b.
Proof.
  intros Hb. unfold Rdiv. rewrite Rmult_1_l. now apply Rinv_0_lt_compat.
Qed.

(** X8: at the origin [x = xi] the forward value is the initial value
    [yi] and the cumulative value is 0, for every exponent of [0,1] and
    every finite decline rate (nonzero for the cumulative). *)
Theorem evaluation_at_origin (b Di yi xi : R) :
  0 <= b <= 1 ->
  Arps.frw (Fin b) (Fin Di) (Fin yi) (reals [xi]) (Fin xi) = ret (reals [yi])
  /\ (Di <> 0 ->
      Arps.cum (Fin b) (Fin Di) (Fin yi) (reals [xi]) (Fin xi)
      = ret (reals [0])).
Proof.
  intros Hb.
  destruct (Req_dec_T b 0) as [-> | Hb0];
    [| destruct (Req_dec_T b 1) as [-> | Hb1]].
  - split.
    + rewrite frw_dispatch_exp, frwexp_reals. cbn [map].
      replace (- Di * (xi - xi)) with 0 by ring. rewrite exp_0.
      now rewrite Rmult_1_r.
    + intros HDi. rewrite cum_dispatch_exp, cumexp_reals by assumption.
      cbn [map]. replace (- Di * (xi - xi)) with 0 by ring. rewrite exp_0.
      replace (yi / Di * (1 - 1)) with 0 by (field; assumption).
      reflexivity.
  - split.
    + rewrite frw_dispatch_har, frwhar_fl. cbn [map].
      replace (1 + Di * (xi - xi)) with 1 by ring.
      rewrite fdiv_Fin by lra. replace (yi / 1) with yi by field.
      reflexivity.
    + intros HDi. rewrite cum_dispatch_har, cumhar_fl by assumption.
      cbn [map]. replace (1 + Di * (xi - xi)) with 1 by ring.
      rewrite flog_Fin_pos by lra. rewrite ln_1. cbn [fmul].
      now rewrite Rmult_0_r.
  - split.
    + rewrite frw_dispatch_hyp, frwhyp_fl by assumption. cbn [map].
      replace (1 + b * Di * (xi - xi)) with 1 by ring.
      pose proof (@inv_pos b) as Hinv.
      rewrite fpow_Fin_pos by lra. rewrite Rpower_1_base.
      rewrite fdiv_Fin by lra. replace (yi / 1) with yi by field.
      reflexivity.
    + intros HDi. rewrite cum_dispatch_hyp, cumhyp_fl by assumption.
      cbn [map]. replace (1 + b * Di * (xi - xi)) with 1 by ring.
      assert (Hb' : 0 < b < 1) by lra. pose proof (inv_gt_1 Hb') as Hinv.
      rewrite fpow_Fin_pos by lra. rewrite Rpower_1_base.
      rewrite fsub_Fin. cbn [fmul].
      replace (yi / Di / (1 - b) * (1 - 1)) with 0 by (field; lra).
      reflexivity.
Qed.

Lemma evaluation_at_origin_witness :
  Arps.frw (Fin (1 / 2)) (Fin 1) (Fin 3) (reals [7]) (Fin 7) = ret (reals [3])
  /\ (1 <> 0 ->
      Arps.cum (Fin (1 / 2)) (Fin 1) (Fin 3) (reals [7]) (Fin 7)
      = ret (reals [0])).
Proof.
  apply (@evaluation_at_origin (1 / 2) 1 3 7). lra.
Defined.

Lemma exp_le_1 (a : R) : a <= 0 -> 0 < exp a <= 1.
Proof.
  intros Ha. split; [apply exp_pos |].
  destruct Ha as [Hlt | ->]; [| rewrite exp_0; lra].
  left. rewrite <- exp_0. now apply exp_increasing.
Qed.

Lemma Rpower_ge_1 (a c : R) : 1 <= a -> 0 <= c -> 1 <= Rpower a c.
Proof.
  intros Ha Hc. rewrite <- (Rpower_1_base c).
  apply Rle_Rpower_l; [assumption | lra].
Qed.

Lemma Rpower_le_1 (a c : R) : 1 <= a -> c <= 0 -> 0 < Rpower a c <= 1.
Proof.
  intros Ha Hc. unfold Rpower. apply exp_le_1.
  assert (Hln : 0 <= ln a).
  { destruct Ha as [Hlt | <-]; [| rewrite ln_1; lra].
    left. rewrite <- ln_1. apply ln_increasing; lra. }
  rewrite <- (Rmult_0_l (ln a)). apply Rmult_le_compat_r; assumption.
Qed.

Lemma Rdiv_le_self (y d : R) : 0 < y -> 1 <= d -> y / d <= y.
Proof.
  intros Hy Hd. unfold Rdiv. rewrite <- (Rmult_1_r y) at 2.
  apply Rmult_le_compat_l; [lra |].
  rewrite <- Rinv_1. apply Rinv_le_contravar; lra.
Qed.

Lemma base_ge_1 (b Di x xi : R) :
  0 <= b -> 0 < Di -> xi <= x -> 1 <= 1 + b * Di * (x - xi).
Proof.
  intros Hb HDi Hx.
  assert (0 <= b * Di * (x - xi)); [| lra].
  apply Rmult_le_pos; [apply Rmult_le_pos |]; lra.
Qed.

(** In exact arithmetic the forward value from the origin on is positive
    and at most the initial value. *)
Lemma frw_bounds_exact (b Di yi xi x : R) :
  0 <= b <= 1 -> 0 < Di -> 0 < yi -> xi <= x ->
  exists y : R,
    Arps.frw (Fin b) (Fin Di) (Fin yi) (reals [x]) (Fin xi) = ret (reals [y])
    /\ 0 < y <= yi.
Proof.
  intros Hb HDi Hyi Hx.
  pose proof (@base_ge_1 b Di x xi) as Hbase.
  destruct (Req_dec_T b 0) as [-> | Hb0];
    [| destruct (Req_dec_T b 1) as [-> | Hb1]].
  - rewrite frw_dispatch_exp, frwexp_reals. cbn [map].
    eexists. split; [reflexivity |].
    assert (Harg : - Di * (x - xi) <= 0).
    { assert (0 <= Di * (x - xi)) by (apply Rmult_le_pos; lra). lra. }
    pose proof (exp_le_1 Harg) as [He1 He2]. split.
    + now apply Rmult_lt_0_compat.
    + rewrite <- (Rmult_1_r yi) at 2. apply Rmult_le_compat_l; lra.
  - rewrite frw_dispatch_har, frwhar_fl. cbn [map].
    assert (Hd : 1 <= 1 + Di * (x - xi)).
    { replace (1 + Di * (x - xi)) with (1 + 1 * Di * (x - xi)) by ring.
      apply Hbase; lra. }
    rewrite fdiv_Fin by lra.
    eexists. split; [reflexivity |]. split.
    + apply Rdiv_lt_0_compat; lra.
    + apply Rdiv_le_self; lra.
  - rewrite frw_dispatch_hyp, frwhyp_fl by assumption. cbn [map].
    assert (Hd : 1 <= 1 + b * Di * (x - xi)) by (apply Hbase; lra).
    assert (Hinv : 0 < 1 / b) by (apply inv_pos; lra).
    rewrite fpow_Fin_pos by lra.
    rewrite fdiv_Fin by apply Rpower_nonzero.
    assert (Hp : 1 <= Rpower (1 + b * Di * (x - xi)) (1 / b))
      by (apply Rpower_ge_1; lra).
    eexists. split; [reflexivity |]. split.
    + apply Rdiv_lt_0_compat; lra.
    + apply Rdiv_le_self; lra.
Qed.

(** X9: from the origin on ([x >= xi]) a decline with [Di > 0] and
    [yi > 0] is never negative and never exceeds its initial value, for
    every exponent of [0,1]. *)
Theorem frw_bounded_by_initial (b Di yi xi x : R) :
  0 <= b <= 1 -> 0 < Di -> 0 < yi -> xi <= x ->
  exists y : R,
    Arps.frw (Fin b) (Fin Di) (Fin yi) (reals [x]) (Fin xi) = ret (reals [y])
    /\ 0 <= y <= yi.
Proof.
  intros Hb HDi Hyi Hx.
  destruct (@frw_bounds_exact b Di yi xi x Hb HDi Hyi Hx) as [y [H Hy]].
  exists y. split; [exact H | lra].
Qed.

Lemma frw_bounded_by_initial_witness :
  exists y : R,
    Arps.frw (Fin (1 / 2)) (Fin 1) (Fin 3) (reals [4]) (Fin 0)
    = ret (reals [y])
    /\ 0 <= y <= 3.
Proof.
  apply (@frw_bounded_by_initial (1 / 2) 1 3 0 4); lra.
Defined.





(** In exact arithmetic the cumulative value from the origin on is
    non-negative and strictly below [yi / (Di * (1 - b))]. *)
Lemma cum_bounds_exact (b Di yi xi x : R) :
  0 <= b < 1 -> 0 < Di -> 0 < yi -> xi <= x ->
  exists n : R,
    Arps.cum (Fin b) (Fin Di) (Fin yi) (reals [x]) (Fin xi) = ret (reals [n])
    /\ 0 <= n < yi / (Di * (1 - b)).
Proof.
  intros Hb HDi Hyi Hx.
  assert (Hq : 0 < yi / Di) by (apply Rdiv_lt_0_compat; lra).
  destruct (Req_dec_T b 0) as [-> | Hb0].
  - rewrite cum_dispatch_exp, cumexp_reals by lra. cbn [map].
    eexists. split; [reflexivity |].
    assert (Harg : - Di * (x - xi) <= 0).
    { assert (0 <= Di * (x - xi)) by (apply Rmult_le_pos; lra). lra. }
    pose proof (exp_le_1 Harg) as [He1 He2].
    replace (yi / (Di * (1 - 0))) with (yi / Di) by (field; lra).
    split.
    + apply Rmult_le_pos; lra.
    + rewrite <- (Rmult_1_r (yi / Di)) at 2.
      apply Rmult_lt_compat_l; lra.
  - rewrite cum_dispatch_hyp, cumhyp_fl by lra. cbn [map].
    assert (Hb' : 0 < b < 1) by lra. pose proof (inv_gt_1 Hb') as Hinv.
    assert (Hd : 1 <= 1 + b * Di * (x - xi)) by (apply base_ge_1; lra).
    rewrite fpow_Fin_pos by lra. rewrite fsub_Fin. cbn [fmul].
    assert (Hp : 0 < Rpower (1 + b * Di * (x - xi)) (1 - 1 / b) <= 1)
      by (apply Rpower_le_1; lra).
    assert (Hq' : 0 < yi / Di / (1 - b))
      by (apply Rdiv_lt_0_compat; lra).
    eexists. split; [reflexivity |].
    replace (yi / (Di * (1 - b))) with (yi / Di / (1 - b)) by (field; lra).
    split.
    + apply Rmult_le_pos; lra.
    + rewrite <- (Rmult_1_r (yi / Di / (1 - b))) at 2.
      apply Rmult_lt_compat_l; lra.
Qed.

(** X11: for an exponent [0 <= b < 1], [Di > 0] and [yi > 0] the cumulative
    value from the origin on is non-negative and never exceeds the finite
    limit [yi / (Di * (1 - b))]. *)
Theorem cum_bounded_by_limit (b Di yi xi x : R) :
  0 <= b < 1 -> 0 < Di -> 0 < yi -> xi <= x ->
  exists n : R,
    Arps.cum (Fin b) (Fin Di) (Fin yi) (reals [x]) (Fin xi) = ret (reals [n])
    /\ 0 <= n <= yi / (Di * (1 - b)).
Proof.
  intros Hb HDi Hyi Hx.
  destruct (@cum_bounds_exact b Di yi xi x Hb HDi Hyi Hx) as [n [H Hn]].
  exists n. split; [exact H | lra].
Qed.

Lemma cum_bounded_by_limit_witness :
  exists n : R,
    Arps.cum (Fin (1 / 2)) (Fin 1) (Fin 3) (reals [4]) (Fin 0)
    = ret (reals [n])
    /\ 0 <= n <= 3 / (1 * (1 - 1 / 2)).
Proof.
  apply (@cum_bounded_by_limit (1 / 2) 1 3 0 4); lra.
Defined.

(** ** R-squared on arrays of numbers *)

Lemma nansum_reals {A} (g : A -> R) (l : list A) :
  nansum (map (fun t => Fin (g t)) l) = Fin (Score.Rsum (map g l)).
Proof.
  unfold nansum, fsum, Score.Rsum.
  induction l as [| a l IH]; simpl; [reflexivity |].
  simpl in IH. now rewrite IH.
Qed.

Lemma nansum_Fin (l : list R) : nansum (map Fin l) = Fin (Score.Rsum l).
Proof.
  unfold nansum, fsum, Score.Rsum.
  induction l as [| a l IH]; simpl; [reflexivity |].
  simpl in IH. now rewrite IH.
Qed.

Lemma sumsq_nonneg (l : list R) : 0 <= Score.sumsq l.
Proof.
  unfold Score.sumsq, Score.Rsum. induction l as [| a l IH]; simpl; [lra |].
  pose proof (Rle_0_sqr a) as Ha. unfold Rsqr in Ha. lra.
Qed.

Lemma zip_sub_reals (c o : list R) :
  zip_with fsub (reals o) (reals c)
  = map (fun p => Fin (snd p - fst p)) (combine c o).
Proof.
  unfold reals. revert o. induction c as [| a c IH]; intros [| b o]; simpl;
    try reflexivity.
  now rewrite IH.
Qed.

(** What [rsquared] computes on two arrays of numbers of one length. *)
Lemma rsquared_reals (c o : list R) :
  List.length c = List.length o -> o <> [] ->
  Arps.rsquared (reals c) (reals o)
  = ret (fsub (Fin 1)
           (fdiv (Fin (Score.sumsq (map (fun p => snd p - fst p) (combine c o))))
                 (Fin (Score.sumsq (map (fun t => t - Score.Rmean o) o))))).
Proof.
  intros Hlen Hne. rewrite rsquared_squares.
  rewrite broadcast_same_length by (unfold reals; rewrite !length_map; congruence).
  rewrite bind_ret_l. apply (f_equal (@ret fl)).
  rewrite zip_sub_reals, map_map.
  assert (Hmean : nanmean (reals o) = Fin (Score.Rmean o)).
  { unfold nanmean, nancount, reals.
    rewrite nansum_Fin.
    assert (Hf : filter (fun v => negb (isnan v)) (map Fin o) = map Fin o).
    { clear. induction o as [| a o IH]; simpl; [reflexivity | now rewrite IH]. }
    rewrite Hf, length_map. apply fdiv_Fin. apply not_0_INR.
    destruct o; [congruence | discriminate]. }
  rewrite Hmean. unfold reals. rewrite map_map.
  unfold fsquare, fsub. cbn [fneg fadd fmul].
  rewrite (nansum_reals (fun p : R * R => (snd p + - fst p) * (snd p + - fst p))).
  rewrite (nansum_reals (fun t => (t + - Score.Rmean o) * (t + - Score.Rmean o))).
  unfold Score.sumsq. now rewrite !map_map.
Qed.

Lemma one_minus_ratio (a b : R) :
  0 <= a -> 0 <= b ->
  (b = 0 /\ a = 0 /\ fsub (Fin 1) (fdiv (Fin a) (Fin b)) = NaN)
  \/ (b = 0 /\ 0 < a /\ fsub (Fin 1) (fdiv (Fin a) (Fin b)) = NInf)
  \/ (0 < b /\ fsub (Fin 1) (fdiv (Fin a) (Fin b)) = Fin (1 - a / b)
      /\ 1 - a / b <= 1).
Proof.
  intros Ha Hb. destruct Hb as [Hb | <-].
  - right. right. split; [assumption |].
    rewrite fdiv_Fin by lra. split; [reflexivity |].
    assert (0 <= a / b) by (apply Rmult_le_pos; [lra |];
      left; apply Rinv_0_lt_compat; lra). lra.
  - unfold fdiv. rewrite Rsign_zero. destruct Ha as [Ha | <-].
    + right. left. rewrite (Rsign_pos Ha). auto.
    + left. rewrite Rsign_zero. auto.
Qed.

(** X12: on two arrays of numbers of one length [rsquared] never raises and
    never exceeds 1: the result is a number at most 1, or [-inf], or
    [NaN]; for a perfect fit ([ycal = yobs]) it is 1 or [NaN], and for
    empty arrays it is [NaN]. *)
Theorem rsquared_at_most_one (c o : list R) :
  List.length c = List.length o ->
  exists v : fl,
    Arps.rsquared (reals c) (reals o) = ret v
    /\ (v = NaN \/ v = NInf \/ exists r : R, v = Fin r /\ r <= 1)
    /\ (c = o -> v = Fin 1 \/ v = NaN)
    /\ (o = [] -> v = NaN).
Proof.
  intros Hlen. destruct o as [| o0 o'].
  - destruct c; [| discriminate]. exists NaN. split; [| auto].
    rewrite rsquared_squares. unfold broadcast, reals, nanmean, nancount, nansum, fsum.
    simpl. unfold fdiv. rewrite Rsign_zero. reflexivity.
  - set (o := o0 :: o') in *.
    rewrite rsquared_reals by (try assumption; discriminate).
    set (a := Score.sumsq (map (fun p => snd p - fst p) (combine c o))).
    set (b := Score.sumsq (map (fun t => t - Score.Rmean o) o)).
    eexists. split; [reflexivity |].
    destruct (one_minus_ratio (sumsq_nonneg _ : 0 <= a) (sumsq_nonneg _ : 0 <= b))
      as [[_ [_ H]] | [[_ [Ha H]] | [Hb [H Hle]]]]; rewrite H;
      (split; [| split; [| intros Ho; unfold o in Ho; discriminate Ho]]).
    + auto.
    + auto.
    + auto.
    + intros ->. exfalso.
      assert (Hz : a = 0).
      { unfold a. clear. induction o as [| t o IH]; [reflexivity |].
        unfold Score.sumsq, Score.Rsum in *. simpl. rewrite IH. ring. }
      lra.
    + right; right; eauto.
    + intros ->. left.
      assert (Hz : a = 0).
      { unfold a. clear. induction o as [| t o IH]; [reflexivity |].
        unfold Score.sumsq, Score.Rsum in *. simpl. rewrite IH. ring. }
      rewrite Hz. f_equal. field. lra.
Qed.

Lemma rsquared_at_most_one_witness :
  exists v : fl,
    Arps.rsquared (reals [1; 2; 4]) (reals [1; 3; 5]) = ret v
    /\ (v = NaN \/ v = NInf \/ exists r : R, v = Fin r /\ r <= 1)
    /\ ([1; 2; 4] = [1; 3; 5] -> v = Fin 1 \/ v = NaN)
    /\ ([1; 3; 5] = [] -> v = NaN).
Proof.
  apply (@rsquared_at_most_one [1; 2; 4] [1; 3; 5]). reflexivity.
Defined.

(** ** Callers of the fitting methods *)

(** X15: [Hyperbolic.model] never returns a fitted model: whatever the
    parent class does, the exception of [Hyperbolic.regress] reaches its
    caller. *)
Theorem hyperbolic_model_never_returns
  (xp : fl) (xshift : array -> array -> option fl -> M (array * array))
  (GenModel_regress : array -> array -> M (option LinregressResult))
  (rvalue : fl -> fl -> fl -> array -> array -> M fl)
  (x yobs : array) (xi : option fl) :
  exists e : exn,
    outcome (Hyperbolic.model xp xshift GenModel_regress rvalue x yobs xi)
    = Raise e.
Proof.
  unfold Hyperbolic.model.
  destruct (regress_never_returns xp xshift GenModel_regress rvalue x yobs xi)
    as [e He].
  destruct (Hyperbolic.regress xp xshift GenModel_regress rvalue x yobs xi)
    as [lg [r | e']]; simpl in *; [discriminate | eauto].
Qed.

(** X16: [Arps.inv] performs no regression for any exponent: each of the
    three methods it can dispatch to raises [NameError] on the name
    [self], before least squares is called and without a log record. *)
Theorem inv_raises_name_error
  (linregress : array -> array -> res LinregressResult)
  (b : fl) (x y : array) (xi : option fl) :
  Arps.inv linregress b x y xi = raise (NameError "self").
Proof.
  unfold Arps.inv, Arps.mode, Arps.get_mode.
  destruct (feqb b (Fin 0)); simpl; [reflexivity |].
  destruct (feqb b (Fin 1)); simpl; reflexivity.
Qed.

(** ** Percentile *)

Lemma fadd_0_r (v : fl) : fadd v (Fin 0) = v.
Proof. destruct v; simpl; try reflexivity. now rewrite Rplus_0_r. Qed.

(** X17: with a quantile function that is 0 at 0.5, [percentile] at 0.5
    returns the mean itself for every finite variance that is not
    negative; for a negative variance it returns [NaN] at every percentile
    (the square root is [NaN]), and never raises. *)
Theorem percentile_median (norm_ppf : fl -> fl) (mean : fl) (variance : R) :
  norm_ppf (Fin (5 / 10)) = Fin 0 ->
  (0 <= variance ->
   Score.percentile norm_ppf mean (Fin variance) (Fin (5 / 10)) = mean)
  /\ (variance < 0 ->
      forall perc : fl,
        Score.percentile norm_ppf mean (Fin variance) perc = NaN).
Proof.
  intros Hppf. unfold Score.percentile, Score.fsqrt. split.
  - intros Hv. rewrite Hppf.
    assert (Hs : Rsign variance <> Lt).
    { unfold Rsign. destruct (total_order_T variance 0) as [[H | H] | H];
        try discriminate. lra. }
    destruct (Rsign variance); try congruence;
      cbn [fmul]; rewrite Rmult_0_l; apply fadd_0_r.
  - intros Hv perc. rewrite (Rsign_neg Hv).
    destruct (norm_ppf perc), mean; reflexivity.
Qed.

Lemma percentile_median_witness :
  (0 <= 4 ->
   Score.percentile (fun p => fsub p (Fin (5 / 10))) (Fin 7) (Fin 4)
     (Fin (5 / 10)) = Fin 7)
  /\ (4 < 0 ->
      forall perc : fl,
        Score.percentile (fun p => fsub p (Fin (5 / 10))) (Fin 7) (Fin 4) perc
        = NaN).
Proof.
  apply (@percentile_median (fun p => fsub p (Fin (5 / 10))) (Fin 7) 4).
  simpl. f_equal. lra.
Defined.

(** ** The hyperbolic linearization *)

Lemma Rpower_inv_base (a c : R) : 0 < a -> Rpower (/ a) c = Rpower a (- c).
Proof.
  intros Ha. unfold Rpower. rewrite ln_Rinv by assumption. f_equal. ring.
Qed.

(** The linearized value of a noiseless hyperbolic rate. *)
Lemma linearized_rate (b yi base : R) :
  b <> 0 -> 0 < yi -> 0 < base ->
  Rpower (1 / (yi / Rpower base (1 / b))) b = base * Rpower yi (- b).
Proof.
  intros Hb Hyi Hbase.
  assert (Hp : 0 < Rpower base (1 / b)) by (unfold Rpower; apply exp_pos).
  replace (1 / (yi / Rpower base (1 / b)))
    with (Rpower base (1 / b) * / yi) by (field; lra).
  rewrite <- Rpower_mult_distr by (try assumption; now apply Rinv_0_lt_compat).
  rewrite Rpower_mult. replace (1 / b * b) with 1 by (field; assumption).
  rewrite Rpower_1 by assumption. now rewrite Rpower_inv_base.
Qed.

(** X18: the linearization of [Hyperbolic.regress] is exact on noiseless
    data: applied to the rates [frw] returns for [0 < b < 1] and [yi > 0]
    (at times after the pole), [numpy.power(1/y, b)] is the straight line
    of intercept [yi^(-b)] and slope [b*Di*yi^(-b)] in [x - xi]. *)
Theorem linearization_exact (b Di yi xi : R) (x : list R) :
  0 < b < 1 -> 0 < yi ->
  Forall (fun t => 0 < 1 + b * Di * (t - xi)) x ->
  exists y : array,
    Arps.frw (Fin b) (Fin Di) (Fin yi) (reals x) (Fin xi) = ret y
    /\ Hyperbolic.linearize (Fin b) y
       = reals (map (fun t =>
                  Rpower yi (- b) + b * Di * Rpower yi (- b) * (t - xi)) x).
Proof.
  intros Hb Hyi Hpos.
  rewrite frw_dispatch_hyp, frwhyp_fl by lra.
  eexists. split; [reflexivity |].
  unfold Hyperbolic.linearize, reals. rewrite !map_map.
  apply map_ext_Forall with (1 := Hpos). intros t Ht.
  assert (Hinv : 0 < 1 / b) by (apply inv_pos; lra).
  rewrite fpow_Fin_pos by lra.
  assert (Hp : 0 < Rpower (1 + b * Di * (t - xi)) (1 / b))
    by (unfold Rpower; apply exp_pos).
  rewrite fdiv_Fin by lra.
  assert (Hy : 0 < yi / Rpower (1 + b * Di * (t - xi)) (1 / b))
    by (apply Rdiv_lt_0_compat; assumption).
  rewrite fdiv_Fin by lra.
  assert (Hr : 0 < 1 / (yi / Rpower (1 + b * Di * (t - xi)) (1 / b)))
    by (apply inv_pos; assumption).
  rewrite fpow_Fin_pos by lra.
  rewrite linearized_rate by lra. f_equal. ring.
Qed.

Lemma linearization_exact_witness :
  exists y : array,
    Arps.frw (Fin (1 / 2)) (Fin 1) (Fin 4) (reals [0; 2]) (Fin 0) = ret y
    /\ Hyperbolic.linearize (Fin (1 / 2)) y
       = reals (map (fun t =>
                  Rpower 4 (- (1 / 2))
                  + 1 / 2 * 1 * Rpower 4 (- (1 / 2)) * (t - 0)) [0; 2]).
Proof.
  apply (@linearization_exact (1 / 2) 1 4 0 [0; 2]).
  - lra.
  - lra.
  - repeat constructor; lra.
Defined.

(** X19: the two formulas written on line 34 are the right inverse
    transform: from the slope [b*Di*yi^(-b)] and the intercept [yi^(-b)]
    of that straight line, the second and third items of the display are
    [Di] and [yi] again (the first item is the stray 0). *)
Theorem line34_items_recover (b Di yi : R) (l : LinregressResult) :
  b <> 0 -> 0 < yi ->
  slope l = Fin (b * Di * Rpower yi (- b)) ->
  intercept l = Fin (Rpower yi (- b)) ->
  Hyperbolic.line34 (Fin b) (Some l) = ret [Fin 0; Fin Di; Fin yi].
Proof.
  intros Hb Hyi Hs Hi. unfold Hyperbolic.line34.
  rewrite Hs, Hi. rewrite pydiv_Fin by assumption. rewrite bind_ret_l.
  assert (Hp : 0 < Rpower yi (- b)) by (unfold Rpower; apply exp_pos).
  rewrite !fdiv_Fin by lra.
  assert (He : -1 / b <> 0).
  { unfold Rdiv. apply Rmult_integral_contrapositive_currified; [lra |].
    now apply Rinv_neq_0_compat. }
  rewrite fpow_Fin_pos by assumption.
  rewrite Rpower_mult. replace (- b * (-1 / b)) with 1 by (field; assumption).
  rewrite Rpower_1 by assumption.
  replace (b * Di * Rpower yi (- b) / Rpower yi (- b) / b) with Di
    by (field; split; lra).
  reflexivity.
Qed.

Lemma line34_items_recover_witness :
  Hyperbolic.line34 (Fin (1 / 2))
    (Some (mkLinregress (Fin (1 / 2 * 3 * Rpower 4 (- (1 / 2))))
             (Fin (Rpower 4 (- (1 / 2)))) NaN NaN NaN NaN))
  = ret [Fin 0; Fin 3; Fin 4].
Proof.
  apply (@line34_items_recover (1 / 2) 3 4
           (mkLinregress (Fin (1 / 2 * 3 * Rpower 4 (- (1 / 2))))
              (Fin (Rpower 4 (- (1 / 2)))) NaN NaN NaN NaN)).
  - lra.
  - lra.
  - reflexivity.
  - reflexivity.
Defined.

(** ** Totality of the evaluations and idempotence of the cleaning *)

Lemma feqb_one_minus (b : fl) :
  feqb b (Fin 1) = false -> feqb (fsub (Fin 1) b) (Fin 0) = false.
Proof.
  destruct b as [r | | |]; try reflexivity. simpl.
  destruct (Req_dec_T r 1); [discriminate |]. intros _.
  destruct (Req_dec_T (1 + - r) 0); [lra | reflexivity].
Qed.

(** X20: [frw] never raises and never logs, whatever the exponent and the
    parameters ([NaN] and infinities included): it returns one value per
    entry of [x].  [cum] does the same unless [Di] is zero, the one case
    in which it raises. *)
Theorem evaluation_total (b Di yi : fl) (x : array) (xi : fl) :
  (exists y : array,
     Arps.frw b Di yi x xi = ret y /\ List.length y = List.length x)
  /\ (Di <> Fin 0 ->
      exists n : array,
        Arps.cum b Di yi x xi = ret n /\ List.length n = List.length x).
Proof.
  split.
  - rewrite frw_dispatch.
    destruct (feqb b (Fin 0)) eqn:E0; [| destruct (feqb b (Fin 1)) eqn:E1].
    + eexists. split; [reflexivity |]. now rewrite length_map.
    + eexists. split; [reflexivity |]. now rewrite length_map.
    + unfold Arps.frwhyp, pydiv. rewrite E0, bind_ret_l.
      eexists. split; [reflexivity |]. now rewrite !length_map.
  - intros HDi.
    assert (ED : feqb Di (Fin 0) = false).
    { destruct (feqb Di (Fin 0)) eqn:E; [| reflexivity].
      apply feqb_Fin_true in E. congruence. }
    rewrite cum_dispatch.
    destruct (feqb b (Fin 0)) eqn:E0; [| destruct (feqb b (Fin 1)) eqn:E1].
    + unfold Arps.cumexp, pydiv. rewrite ED, bind_ret_l.
      eexists. split; [reflexivity |]. now rewrite length_map.
    + unfold Arps.cumhar, pydiv. rewrite ED, bind_ret_l.
      eexists. split; [reflexivity |]. now rewrite length_map.
    + unfold Arps.cumhyp, pydiv. rewrite ED, bind_ret_l.
      rewrite (feqb_one_minus b E1), bind_ret_l. rewrite E0, bind_ret_l.
      eexists. split; [reflexivity |]. now rewrite !length_map.
Qed.

Lemma evaluation_total_witness :
  exists n : array,
    Arps.cum NaN PInf (Fin 3) [NaN; Fin 2] NInf = ret n
    /\ List.length n = List.length [NaN; Fin 2].
Proof.
  apply (proj2 (evaluation_total NaN PInf (Fin 3) [NaN; Fin 2] NInf)).
  discriminate.
Defined.

Lemma filter_idempotent {A} (f : A -> bool) (l : list A) :
  filter f (filter f l) = filter f l.
Proof.
  induction l as [| a l IH]; simpl; [reflexivity |].
  destruct (f a) eqn:E; simpl; [rewrite E |]; now rewrite IH.
Qed.

(** X21: cleaning is idempotent: on arrays of one length, what [nzero]
    returns is left unchanged by [nzero], and likewise for the cleaning
    step of [Hyperbolic.regress]. *)
Theorem cleaning_idempotent (x y : array) :
  List.length x = List.length y ->
  (exists x' y' : array,
     Arps.nzero x y = ret (x', y') /\ Arps.nzero x' y' = ret (x', y'))
  /\ (exists x' y' : array,
        Hyperbolic.nonzero x y = ret (x', y')
        /\ Hyperbolic.nonzero x' y' = ret (x', y')).
Proof.
  intros Hlen.
  assert (H : forall f : fl -> bool,
    let k := filter (fun p : fl * fl => f (snd p)) (combine x y) in
    (x' <- mask_index (map fst k) (map f (map snd k)) ;;
     y' <- mask_index (map snd k) (map f (map snd k)) ;; ret (x', y'))
    = ret (map fst k, map snd k)).
  { intros f k.
    rewrite (mask_pairs f (map fst k) (map snd k))
      by now rewrite !length_map.
    rewrite combine_fst_snd. unfold k. now rewrite filter_idempotent. }
  split.
  - do 2 eexists. split.
    + unfold Arps.nzero.
      apply (mask_pairs (fun v => negb (isnan v) && fneb v (Fin 0)) x y Hlen).
    + apply (H (fun v => negb (isnan v) && fneb v (Fin 0))).
  - do 2 eexists. split.
    + unfold Hyperbolic.nonzero.
      apply (mask_pairs (fun v => fneb v (Fin 0)) x y Hlen).
    + apply (H (fun v => fneb v (Fin 0))).
Qed.

Lemma cleaning_idempotent_witness :
  exists x' y' : array,
    Arps.nzero (reals [1; 2; 3]) [Fin 0; NaN; Fin 7] = ret (x', y')
    /\ Arps.nzero x' y' = ret (x', y').
Proof.
  apply (@cleaning_idempotent (reals [1; 2; 3]) [Fin 0; NaN; Fin 7]).
  reflexivity.
Defined.

(** ** Cumulative evaluation and the kind of its scalars *)

Import Kinds.

Lemma kinds_cum_dispatch (b Di yi : scalar) (x : array) (xi : scalar) :
  Kinds.cum b Di yi x xi
  = if feqb (val b) (Fin 0) then Kinds.cumexp Di yi x xi
    else if feqb (val b) (Fin 1) then Kinds.cumhar Di yi x xi
    else Kinds.cumhyp Di yi x xi b.
Proof.
  unfold Kinds.cum, Arps.mode, Arps.get_mode, Kinds.inp.
  destruct (feqb (val b) (Fin 0)); simpl.
  - unfold Kinds.call4. simpl.
    destruct (Kinds.cumexp Di yi x xi) as [l r]. reflexivity.
  - destruct (feqb (val b) (Fin 1)); simpl.
    + unfold Kinds.call4. simpl.
      destruct (Kinds.cumhar Di yi x xi) as [l r]. reflexivity.
    + unfold Kinds.call5. simpl.
      destruct (Kinds.cumhyp Di yi x xi b) as [l r]. reflexivity.
Qed.

Lemma pydiv_cases (a b : fl) :
  pydiv a b = raise ZeroDivisionError \/ pydiv a b = ret (fdiv a b).
Proof. unfold pydiv. destruct (feqb b (Fin 0)); auto. Qed.

(** On plain Python numbers the kind-aware methods are those of [Arps]. *)
Lemma kinds_cum_plain (b Di yi : fl) (x : array) (xi : fl) :
  Kinds.cum (PyFloat b) (PyFloat Di) (PyFloat yi) x (PyFloat xi)
  = Arps.cum b Di yi x xi.
Proof.
  rewrite kinds_cum_dispatch, cum_dispatch. cbn [val].
  destruct (feqb b (Fin 0)); [| destruct (feqb b (Fin 1))].
  - unfold Kinds.cumexp, Arps.cumexp, sdiv. cbn [is_np orb val].
    destruct (pydiv_cases yi Di) as [H | H]; rewrite H; [reflexivity |].
    rewrite !bind_ret_l. reflexivity.
  - unfold Kinds.cumhar, Arps.cumhar, sdiv. cbn [is_np orb val].
    destruct (pydiv_cases yi Di) as [H | H]; rewrite H; [reflexivity |].
    rewrite !bind_ret_l. reflexivity.
  - unfold Kinds.cumhyp, Arps.cumhyp.
    unfold sdiv at 1. cbn [is_np orb val].
    destruct (pydiv_cases yi Di) as [H | H]; rewrite H; [reflexivity |].
    rewrite !bind_ret_l.
    unfold sdiv at 1, ssub. cbn [is_np orb mk val].
    destruct (pydiv_cases (fdiv yi Di) (fsub (Fin 1) b)) as [H1 | H1];
      rewrite H1; [reflexivity |].
    rewrite !bind_ret_l.
    unfold sdiv. cbn [is_np orb mk val].
    destruct (pydiv_cases (Fin 1) b) as [H2 | H2]; rewrite H2; [reflexivity |].
    rewrite !bind_ret_l. reflexivity.
Qed.

Lemma fdiv_by_zero (a : fl) (z : R) :
  z = 0 -> isfinite (fdiv a (Fin z)) = false.
Proof.
  intros ->. destruct a as [r | | |]; unfold fdiv; rewrite ?Rsign_zero;
    try reflexivity.
  destruct (Rsign r); reflexivity.
Qed.

Lemma fdiv_nonfinite (a z : fl) :
  isfinite a = false -> isfinite (fdiv a z) = false.
Proof.
  destruct a as [r | | |]; try discriminate; intros _;
    destruct z as [y | | |]; unfold fdiv; try reflexivity;
    destruct (Rsign y); reflexivity.
Qed.

Lemma fmul_nonfinite (a z : fl) :
  isfinite a = false -> isfinite (fmul a z) = false.
Proof.
  destruct a as [r | | |]; try discriminate; intros _;
    destruct z as [y | | |]; unfold fmul, inf_signed; try reflexivity;
    destruct (Rsign y); reflexivity.
Qed.



Lemma Forall_map_nonfinite {A} (q : fl) (g : A -> fl) (l : list A) :
  isfinite q = false ->
  Forall (fun v => isfinite v = false) (map (fun t => fmul q (g t)) l).
Proof.
  intros Hq. apply Forall_forall. intros v Hv.
  apply in_map_iff in Hv. destruct Hv as [t [<- _]].
  now apply fmul_nonfinite.
Qed.

(** C9 (as the code has it): cumulative evaluation at [Di = 0] is never
    logged, in any mode.  When [yi] and [Di] are both plain Python numbers
    the division [yi/Di] raises [ZeroDivisionError] to the caller and
    nothing is returned; when one of them is a [numpy.float64] nothing is
    raised and [cum] returns, without a word, one value per entry of [x],
    each of them an infinity or [NaN]. *)
Theorem cum_zero_decline (b Di yi xi : scalar) (x : array) :
  val Di = Fin 0 ->
  logs (Kinds.cum b Di yi x xi) = []
  /\ (is_np yi || is_np Di = false ->
      Kinds.cum b Di yi x xi = raise ZeroDivisionError)
  /\ (is_np yi || is_np Di = true ->
      exists n : array,
        Kinds.cum b Di yi x xi = ret n
        /\ List.length n = List.length x
        /\ Forall (fun v => isfinite v = false) n)
  /\ (forall b0 yi0 xi0 : fl,
        Kinds.cum (PyFloat b0) (PyFloat (Fin 0)) (PyFloat yi0) x (PyFloat xi0)
        = Arps.cum b0 (Fin 0) yi0 x xi0).
Proof.
  intros HDi.
  assert (Hpy : is_np yi || is_np Di = false ->
                Kinds.cum b Di yi x xi = raise ZeroDivisionError).
  { intros Hk. rewrite kinds_cum_dispatch.
    unfold Kinds.cumexp, Kinds.cumhar, Kinds.cumhyp, sdiv.
    rewrite Hk, HDi, pydiv_zero.
    destruct (feqb (val b) (Fin 0)); [| destruct (feqb (val b) (Fin 1))];
      reflexivity. }
  assert (Hnp : is_np yi || is_np Di = true ->
                exists n : array,
                  Kinds.cum b Di yi x xi = ret n
                  /\ List.length n = List.length x
                  /\ Forall (fun v => isfinite v = false) n).
  { intros Hk. rewrite kinds_cum_dispatch.
    pose proof (fdiv_by_zero (val yi) eq_refl) as Hq.
    unfold Kinds.cumexp, Kinds.cumhar, Kinds.cumhyp.
    unfold sdiv at 1 2 3. rewrite Hk, HDi, !bind_ret_l. simpl val.
    destruct (feqb (val b) (Fin 0)) eqn:E0;
      [| destruct (feqb (val b) (Fin 1)) eqn:E1].
    - eexists. split; [reflexivity |]. split; [now rewrite length_map |].
      now apply Forall_map_nonfinite.
    - eexists. split; [reflexivity |]. split; [now rewrite length_map |].
      now apply Forall_map_nonfinite.
    - unfold sdiv at 1. cbn [is_np orb]. rewrite bind_ret_l. cbn [val].
      assert (Hr : exists r : scalar, sdiv (PyFloat (Fin 1)) b = ret r).
      { unfold sdiv. cbn [is_np orb]. destruct (is_np b); [eauto |].
        unfold pydiv. cbn [val]. rewrite E0, bind_ret_l. eauto. }
      destruct Hr as [r Hr]. rewrite Hr, bind_ret_l.
      eexists. split; [reflexivity |]. split; [now rewrite !length_map |].
      rewrite map_map. apply Forall_map_nonfinite.
      now apply fdiv_nonfinite. }
  split; [| split; [exact Hpy | split; [exact Hnp |]]].
  - destruct (is_np yi || is_np Di) eqn:Hk.
    + destruct (Hnp eq_refl) as [n [Hn _]]. now rewrite Hn.
    + now rewrite (Hpy eq_refl).
  - intros b0 yi0 xi0. apply kinds_cum_plain.
Qed.

Lemma cum_zero_decline_witness :
  exists n : array,
    Kinds.cum (PyFloat (Fin (1 / 2))) (PyFloat (Fin 0)) (NpFloat (Fin 3))
      (reals [1; 2]) (PyFloat (Fin 0)) = ret n
    /\ List.length n = List.length (reals [1; 2])
    /\ Forall (fun v => isfinite v = false) n.
Proof.
  apply (proj1 (proj2 (proj2
           (@cum_zero_decline (PyFloat (Fin (1 / 2))) (PyFloat (Fin 0))
              (NpFloat (Fin 3)) (PyFloat (Fin 0)) (reals [1; 2]) eq_refl)))).
  reflexivity.
Defined.

(** C9, the claim as stated fails: cumulative evaluation at [Di = 0] writes
    no log record; and with a [numpy.float64] initial value it returns
    [NaN] at every entry without raising. *)
Lemma cum_zero_decline_not_logged :
  ~ (exists msg : string,
       In msg (logs (Arps.cum (Fin 0) (Fin 0) (Fin 3) (reals [1; 2]) (Fin 0))))
  /\ Kinds.cum (PyFloat (Fin 0)) (PyFloat (Fin 0)) (NpFloat (Fin 3))
       (reals [1; 2]) (PyFloat (Fin 0))
     = ret [NaN; NaN].
Proof.
  split.
  - rewrite cum_dispatch_exp. unfold Arps.cumexp. rewrite pydiv_zero.
    simpl. intros [msg []].
  - rewrite kinds_cum_dispatch. cbn [val]. rewrite feqb_Fin_refl.
    unfold Kinds.cumexp, sdiv. cbn [is_np orb val]. rewrite bind_ret_l.
    cbn [val]. unfold fdiv. rewrite Rsign_zero, (Rsign_pos (r := 3)) by lra.
    unfold reals. cbn [map inf_signed fsub fneg fadd fmul fexp].
    replace (- 0 * (1 + - 0)) with 0 by ring.
    replace (- 0 * (2 + - 0)) with 0 by ring.
    rewrite exp_0. replace (1 + - (1)) with 0 by ring.
    rewrite Rsign_zero. reflexivity.
Qed.

